(** * ENS MCP server: provider list, client rotation, error classification
    and operation handlers

  A shallow embedding of [src/clients/index.ts] (provider list resolver and
  the rotating JustaName client factory), [src/utils/index.ts] (the error
  classifier and the eight operation handlers) and the tool dispatch of
  [src/index.ts], together with the properties the specification states
  about them.

  Modelling conventions.
  - A JavaScript string is a [string]; a character is a code unit in the
    range 0..255, which covers the URLs, names and messages handled here.
  - [undefined] and [null] are [None].
  - A JavaScript number or bigint holding an integer is a [Z]; where the
    sources multiply numbers, the product is rounded as a double
    ([Js.times]).
  - A thrown value is a [Js.thrown]; an evaluation that may throw ends in
    a [Js.outcome].
  - An [async] function is a program of the free monad [Prog] over the
    calls to the upstream clients; a rejected promise is [Throw]. *)

From Stdlib Require Import String Ascii List ZArith Lia Bool.
From ExtLib Require Import Structures.Monad Structures.MonadExc.
Import ListNotations.
Import MonadNotation.

Local Open Scope list_scope.
Local Open Scope string_scope.
Local Open Scope monad_scope.

(* ===================================================================== *)
(** ** JavaScript string primitives used by the sources *)
(* ===================================================================== *)

Module Js.

(** [s.includes(sub)] *)
Fixpoint includes (s sub : string) : bool :=
  prefix sub s ||
  match s with
  | EmptyString => false
  | String _ s' => includes s' sub
  end.

(** [s.endsWith(suffix)] *)
Definition endsWith (s suffix : string) : bool :=
  let n := String.length s in
  let m := String.length suffix in
  if Nat.leb m n then String.eqb (substring (n - m) m s) suffix else false.

(** Truthiness of a string: only the empty string is falsy. *)
Definition truthy (s : string) : bool := negb (String.eqb s "").

(** Truthiness of a possibly [undefined] string. *)
Definition truthy_opt (s : option string) : bool :=
  match s with
  | Some v => truthy v
  | None => false
  end.

(** ECMAScript WhiteSpace and LineTerminator code units below 256:
    TAB, LF, VT, FF, CR, SP and NBSP. *)
Definition is_ws (c : ascii) : bool :=
  let n := nat_of_ascii c in
  (Nat.leb 9 n && Nat.leb n 13) || Nat.eqb n 32 || Nat.eqb n 160.

Fixpoint trimStart (s : string) : string :=
  match s with
  | EmptyString => EmptyString
  | String c s' => if is_ws c then trimStart s' else s
  end.

Fixpoint trimEnd (s : string) : string :=
  match s with
  | EmptyString => EmptyString
  | String c s' =>
      match trimEnd s' with
      | EmptyString => if is_ws c then EmptyString else String c EmptyString
      | t => String c t
      end
  end.

(** [s.trim()] *)
Definition trim (s : string) : string := trimEnd (trimStart s).

(** [s.split(sep)] for a one-character separator. *)
Fixpoint split (sep : ascii) (s : string) : list string :=
  match s with
  | EmptyString => [EmptyString]
  | String c s' =>
      if Ascii.eqb c sep then EmptyString :: split sep s'
      else match split sep s' with
           | piece :: rest => String c piece :: rest
           | [] => [String c EmptyString]
           end
  end.

(** [arr[i]] for an integer index: [undefined] outside the array. *)
Definition index {A} (arr : list A) (i : Z) : option A :=
  if (i <? 0)%Z then None else nth_error arr (Z.to_nat i).

(** *** Vocabulary for stating what [trim] and [split] return *)

Fixpoint all_ws (s : string) : bool :=
  match s with
  | EmptyString => true
  | String c s' => is_ws c && all_ws s'
  end.

Definition starts_ws (s : string) : bool :=
  match s with
  | EmptyString => false
  | String c _ => is_ws c
  end.

Fixpoint ends_ws (s : string) : bool :=
  match s with
  | EmptyString => false
  | String c EmptyString => is_ws c
  | String _ s' => ends_ws s'
  end.

(** [t] is [s] with its surrounding white space removed. *)
Definition Trimmed (s t : string) : Prop :=
  exists l r, s = l ++ t ++ r
              /\ all_ws l = true /\ all_ws r = true
              /\ starts_ws t = false /\ ends_ws t = false.

Fixpoint count (c : ascii) (s : string) : nat :=
  match s with
  | EmptyString => 0
  | String d s' => (if Ascii.eqb d c then 1 else 0) + count c s'
  end.

(** A thrown value, of type [unknown] in the sources:
    - an instance of [Error] with its [name] and its string [message];
    - an instance of [Error] whose [message] is not a string (it is
      [undefined], [null], a number, ...), so that calling
      [message.includes(...)] throws [raised]; [str] is what [String(...)]
      makes of the error;
    - any other value that [String(...)] converts, to [str];
    - any other value that [String(...)] cannot convert: the conversion
      throws [raised], as for [Object.create(null)]. *)
Inductive thrown : Type :=
| ErrorInstance (name message : string)
| OddError (str : string) (raised : thrown)
| NonError (str : string)
| Unconvertible (raised : thrown).

(** How an awaited promise settles, or an evaluation that may throw
    ends. *)
Inductive outcome (A : Type) : Type :=
| Returned (a : A)
| Threw (e : thrown).
Arguments Returned {A} a.
Arguments Threw {A} e.

(** [error instanceof Error] *)
Definition instanceofError (error : thrown) : bool :=
  match error with
  | ErrorInstance _ _ => true
  | OddError _ _ => true
  | NonError _ => false
  | Unconvertible _ => false
  end.

(** [Error.prototype.toString] on an error with a string message. *)
Definition Error_toString (name msg : string) : string :=
  if String.eqb name "" then msg
  else if String.eqb msg "" then name
  else name ++ ": " ++ msg.

(** [String(error)] *)
Definition String_ (error : thrown) : outcome string :=
  match error with
  | ErrorInstance name msg => Returned (Error_toString name msg)
  | OddError str _ => Returned str
  | NonError str => Returned str
  | Unconvertible raised => Threw raised
  end.

(** The [TypeError] of a failed conversion to a primitive value. *)
Definition conversionTypeError : thrown :=
  ErrorInstance "TypeError" "Cannot convert object to primitive value".

(** A JavaScript number that holds an integer, an infinity or [NaN]; the
    sign of zero is not kept. *)
Inductive number : Type :=
| Finite (z : Z)
| PosInfinity
| NegInfinity
| NaN.

(** The double nearest to the integer [z]: exact below [2^53], beyond it
    rounded to 53 significant bits, ties to even, and infinite from
    [2^1024] on. *)
Definition roundToDouble (z : Z) : number :=
  let a := Z.abs z in
  if (a <? 9007199254740992)%Z then Finite z
  else
    let e := (Z.log2 a - 52)%Z in
    let q := Z.shiftr a e in
    let r := Z.land a (Z.ones e) in
    let half := Z.shiftl 1 (e - 1) in
    let q' := if (half <? r)%Z || ((r =? half)%Z && Z.odd q)
              then (q + 1)%Z else q in
    let m := Z.shiftl q' e in
    if (2 ^ 1024 <=? m)%Z
    then (if (z <? 0)%Z then NegInfinity else PosInfinity)
    else Finite (Z.sgn z * m).

(** [a * b] on numbers. *)
Definition times (a b : number) : number :=
  let signed (positive : bool) := if positive then PosInfinity else NegInfinity in
  let infinite (positive : bool) (other : number) :=
    match other with
    | Finite z =>
        if (z =? 0)%Z then NaN else signed (Bool.eqb positive (0 <? z)%Z)
    | PosInfinity => signed positive
    | NegInfinity => signed (negb positive)
    | NaN => NaN
    end in
  match a, b with
  | Finite x, Finite y => roundToDouble (x * y)
  | NaN, _ => NaN
  | _, NaN => NaN
  | PosInfinity, other => infinite true other
  | NegInfinity, other => infinite false other
  | other, PosInfinity => infinite true other
  | other, NegInfinity => infinite false other
  end.

End Js.

(* ===================================================================== *)
(** ** [src/clients/index.ts]: provider list and client factory *)
(* ===================================================================== *)

Module Clients.
Import Js.

Definition DEFAULT_PROVIDERS : list string :=
  [ "https://eth.drpc.org";
    "https://eth.llamarpc.com";
    "https://ethereum.publicnode.com";
    "https://rpc.ankr.com/eth" ].

(** [getProviderUrls], with [process.env.PROVIDER_URL] as its argument. *)
Definition getProviderUrls (envProvider : option string) : list string :=
  match envProvider with
  | Some env =>
      if truthy env && includes env "," then
        map (fun url => trim url) (split "," env)
      else if truthy env then
        env :: filter (fun url => negb (String.eqb url env)) DEFAULT_PROVIDERS
      else DEFAULT_PROVIDERS
  | None => DEFAULT_PROVIDERS
  end.

(** A client built by [JustaName.init]: the object's identity and the one
    network it was configured with. *)
Record JustaNameClient : Type := mkClient {
  clientId : nat;
  chainId : Z;
  providerUrl : option string
}.

(** Object allocation: every [JustaName.init] yields an object whose
    identity was never handed out before. *)
Record Heap : Type := mkHeap { nextId : nat }.

Definition JustaName_init (chain : Z) (url : option string) (h : Heap)
  : JustaNameClient * Heap :=
  (mkClient (nextId h) chain url, mkHeap (S (nextId h))).

(** The value [createJustaNameClient] returns: the [client] property of the
    returned object, and the closure state shared with [retry]
    ([providerUrls], and the variable [client] that [retry] assigns). *)
Record Factory : Type := mkFactory {
  providerUrls : list string;
  held : JustaNameClient;     (* the closure variable [client] *)
  client : JustaNameClient    (* the property [client] of the returned object *)
}.

Definition createJustaNameClient (envProvider : option string) (h : Heap)
  : Factory * Heap :=
  let urls := getProviderUrls envProvider in
  let '(c, h') := JustaName_init 1 (index urls 0) h in
  (mkFactory urls c c, h').

(** [retry(currentIndex = 0)]: the settled promise, the factory and the
    heap afterwards. *)
Definition retry (currentIndex : option Z) (f : Factory) (h : Heap)
  : outcome JustaNameClient * Factory * Heap :=
  let currentIndex := match currentIndex with Some i => i | None => 0%Z end in
  if (currentIndex >=? Z.of_nat (List.length (providerUrls f)) - 1)%Z then
    (Threw (ErrorInstance "Error" "All providers failed"), f, h)
  else
    let '(c, h') :=
      JustaName_init 1 (index (providerUrls f) (currentIndex + 1)) h in
    (Returned c, mkFactory (providerUrls f) c (client f), h').

(** Every client the factory refers to was allocated before. *)
Definition allocated (f : Factory) (h : Heap) : Prop :=
  clientId (held f) < nextId h /\ clientId (client f) < nextId h.

(** The options [configureTransport] gives [http] for one endpoint. *)
Record HttpTransport : Type := mkHttpTransport {
  http_url : string;
  http_timeout : Z;
  http_headers : list (string * string);
  http_retryCount : Z;
  http_retryDelay : Z
}.

(** [configureTransport]: the transports handed to [fallback], in order. *)
Definition configureTransport (envProvider : option string)
  : list HttpTransport :=
  let providerUrls := getProviderUrls envProvider in
  let transports :=
    map (fun url =>
           {| http_url := url;
              http_timeout := 10000;
              http_headers := [ ("Content-Type", "application/json") ];
              http_retryCount := 3;
              http_retryDelay := 1000 |})
        providerUrls in
  transports.

(** A caller that invokes [retry] with each of [indices] in turn, whatever
    the outcomes. *)
Fixpoint retryEach (indices : list (option Z)) (f : Factory) (h : Heap)
  : Factory * Heap :=
  match indices with
  | [] => (f, h)
  | i :: rest =>
      let '(_, f', h') := retry i f h in
      retryEach rest f' h'
  end.

(** A caller that rotates provider by provider: [retry(i)], [retry(i + 1)],
    ... until a rotation rejects (or [fuel] rotations were made); the
    endpoints the returned clients were bound to. *)
Fixpoint rotateFrom (fuel : nat) (i : Z) (f : Factory) (h : Heap)
  : list (option string) * Factory * Heap :=
  match fuel with
  | O => ([], f, h)
  | S fuel' =>
      match retry (Some i) f h with
      | (Returned c, f', h') =>
          let '(bound, f'', h'') := rotateFrom fuel' (i + 1) f' h' in
          (providerUrl c :: bound, f'', h'')
      | (Threw _, f', h') => ([], f', h')
      end
  end.

End Clients.

(* ===================================================================== *)
(** ** [src/utils/index.ts]: error classifier and operation handlers *)
(* ===================================================================== *)

Module Utils.
Import Js.

Record TextContent : Type := mkTextContent {
  type : string;
  text : string
}.

Record ServerResponse : Type := mkServerResponse {
  content : list TextContent;
  isError : bool
}.

Definition LF : string := String "010"%char EmptyString.

Definition normalizeName (name : string) : string :=
  if endsWith name ".eth" then name else name ++ ".eth".

(** The classifying branches of [handleEnsError], entered for an instance
    of [Error]: [Some] is an early [return], [None] falls through. *)
Definition classifyMessage (errorMessage : string) : option string :=
  if includes errorMessage "fetch failed"
     || includes errorMessage "timeout"
     || includes errorMessage "network"
     || includes errorMessage "HTTP request failed"
  then Some ("Network error while accessing Ethereum providers. Please check your internet connection or try again later. Technical details: " ++ errorMessage)
  else if includes errorMessage "ENS"
  then Some ("ENS error: " ++ errorMessage)
  else if includes errorMessage "invalid"
          || includes errorMessage "parameter"
  then Some ("Invalid input: " ++ errorMessage)
  else None.

(** [handleEnsError(error, operation)]; the [console.error] line writes to
    the log only and is left out. The function throws where an operation
    it evaluates throws: [errorMessage.includes] on a message that is not
    a string, and [String(error)] on a value that cannot be converted. *)
Definition handleEnsError (error : thrown) (operation : string)
  : outcome string :=
  let fallthrough (errorMessage : string) : outcome string :=
    if truthy errorMessage
    then Returned ("Error during " ++ operation ++ ": " ++ errorMessage)
    else match String_ error with
         | Returned str => Returned ("Error during " ++ operation ++ ": " ++ str)
         | Threw raised => Threw raised
         end in
  match error with
  | ErrorInstance _ message =>
      let errorMessage := message in
      match classifyMessage errorMessage with
      | Some classified => Returned classified
      | None => fallthrough errorMessage
      end
  | OddError _ raised => Threw raised
  | NonError _ => fallthrough ""
  | Unconvertible _ => fallthrough ""
  end.

(** *** The upstream clients *)

Record AddressRecord : Type := { addr_value : string }.

Record NameResult : Type := { rev_name : string; rev_match : bool }.

Record Ownership : Type := {
  own_owner : string;
  own_registrant : option string;
  own_ownershipLevel : string
}.

Record ExpiryDate : Type := { exp_date : Z }.

Record Expiry : Type := {
  exp_expiry : ExpiryDate;
  exp_gracePeriod : Z;
  exp_status : string
}.

Record Subname : Type := { sub_name : string; sub_owner : option string }.

Record DomainEvent : Type := {
  dom_type : string;
  dom_blockNumber : Z;
  dom_owner : string;
  dom_resolver : string
}.

Record RegistrationEvent : Type := {
  reg_type : string;
  reg_blockNumber : Z;
  reg_registrant : string;
  reg_expiryDate : Z
}.

Record ResolverEvent : Type := {
  res_type : string;
  res_blockNumber : Z;
  res_addr : string;
  res_key : string;
  res_value : option string
}.

Record NameHistory : Type := {
  domainEvents : list DomainEvent;
  registrationEvents : option (list RegistrationEvent);
  resolverEvents : option (list ResolverEvent)
}.

Record Price : Type := { base : Z; premium : Z }.

Record TextRecord : Type := { txt_key : string; txt_value : string }.

Record CoinRecord : Type := {
  coin_name : string;
  coin_id : string;
  coin_value : string
}.

Record ContentHash : Type := { decoded : string; protocolType : string }.

Record Records : Type := {
  resolverAddress : string;
  texts : option (list TextRecord);
  coins : option (list CoinRecord);
  contentHash : option ContentHash
}.

Record RecordsResponse : Type := { records : Records }.

(** A call to [publicClient] (the ENS public client over the fallback
    transport) or to [justaname] (the enriched client). *)
Inductive call : Type :=
| PublicClient_getAddressRecord (name coin : string)
| PublicClient_getName (address : string)
| PublicClient_getTextRecord (name key : string)
| PublicClient_getAvailable (name : string)
| PublicClient_getOwner (name : string)
| PublicClient_getExpiry (name : string)
| PublicClient_getSubnames (name : string)
| PublicClient_getNameHistory (name : string)
| PublicClient_getPrice (nameOrNames : string) (duration : number)
| JustaName_subnames_getRecords (ens : string).

(** What each call resolves to. *)
Definition response (c : call) : Type :=
  match c with
  | PublicClient_getAddressRecord _ _ => option AddressRecord
  | PublicClient_getName _ => option NameResult
  | PublicClient_getTextRecord _ _ => option string
  | PublicClient_getAvailable _ => bool
  | PublicClient_getOwner _ => option Ownership
  | PublicClient_getExpiry _ => option Expiry
  | PublicClient_getSubnames _ => option (list Subname)
  | PublicClient_getNameHistory _ => option NameHistory
  | PublicClient_getPrice _ _ => Price
  | JustaName_subnames_getRecords _ => RecordsResponse
  end.

(** The name a call is about, for the calls keyed by a name. *)
Definition call_name (c : call) : option string :=
  match c with
  | PublicClient_getAddressRecord name _ => Some name
  | PublicClient_getName _ => None
  | PublicClient_getTextRecord name _ => Some name
  | PublicClient_getAvailable name => Some name
  | PublicClient_getOwner name => Some name
  | PublicClient_getExpiry name => Some name
  | PublicClient_getSubnames name => Some name
  | PublicClient_getNameHistory name => Some name
  | PublicClient_getPrice name _ => Some name
  | JustaName_subnames_getRecords ens => Some ens
  end.

(** *** Asynchronous programs over the upstream clients *)

Inductive Prog (A : Type) : Type :=
| Ret (a : A)
| Throw (e : thrown)
| Await (c : call) (k : outcome (response c) -> Prog A).
Arguments Ret {A} a.
Arguments Throw {A} e.
Arguments Await {A} c k.

Fixpoint bindProg {A B} (p : Prog A) (f : A -> Prog B) : Prog B :=
  match p with
  | Ret a => f a
  | Throw e => Throw e
  | Await c k => Await c (fun o => bindProg (k o) f)
  end.

(** [try { p } catch (error) { h error }] *)
Fixpoint tryCatch {A} (p : Prog A) (h : thrown -> Prog A) : Prog A :=
  match p with
  | Ret a => Ret a
  | Throw e => h e
  | Await c k => Await c (fun o => tryCatch (k o) h)
  end.

#[export] Instance Monad_Prog : Monad Prog :=
  {| ret := @Ret; bind := @bindProg |}.

#[export] Instance MonadExc_Prog : MonadExc thrown Prog :=
  {| raise := @Throw; catch := @tryCatch |}.

(** [await] of a client call: a rejection is rethrown at the [await]. *)
Definition await (c : call) : Prog (response c) :=
  Await c (fun o => match o with
                    | Returned r => Ret r
                    | Threw e => Throw e
                    end).

(** An evaluation that may throw, inside an asynchronous function. *)
Definition settle {A : Type} (o : outcome A) : Prog A :=
  match o with
  | Returned a => Ret a
  | Threw e => Throw e
  end.

(** One observed client call: the call, and the value it rejected with if
    it did. *)
Definition event : Type := (call * option thrown)%type.

Definition rejection {A} (o : outcome A) : option thrown :=
  match o with
  | Returned _ => None
  | Threw e => Some e
  end.

(** The upstream side: how a call settles, given the calls made so far. *)
Definition upstream : Type := list event -> forall c : call, outcome (response c).

(** Running a program against an upstream: the calls it made, in order, and
    how its promise settles. *)
Fixpoint run {A} (up : upstream) (past : list event) (p : Prog A)
  : list event * outcome A :=
  match p with
  | Ret a => ([], Returned a)
  | Throw e => ([], Threw e)
  | Await c k =>
      let o := up past c in
      let ev := (c, rejection o) in
      let '(trace, res) := run up (past ++ [ev]) (k o) in
      (ev :: trace, res)
  end.

(** [withErrorHandling(operation, fn, defaultValue)], with the promise
    [fn()] as its argument; the [console.error] line is left out. *)
Definition withErrorHandling {T : Type}
           (operation : string) (fn : Prog T) (defaultValue : T) : Prog T :=
  catch (result <- fn ;; ret result)
        (fun error => ret defaultValue).

(** What the handlers use from the runtime and from [ethers]. *)
Class Runtime : Type := {
  isAddress : string -> bool;           (* ethers.isAddress *)
  formatEther : Z -> string;            (* ethers.formatEther *)
  numberToString : Z -> string;         (* a number or bigint in a template literal *)
  quotientToString : Z -> Z -> string;  (* the number [a / b] in a template literal *)
  toLocaleString : Z -> string          (* new Date(ms).toLocaleString() *)
}.

Section Handlers.
Context {rt : Runtime}.

Definition resolveName (name : string) : Prog ServerResponse :=
  let normalizedName := normalizeName name in
  catch
    (result <- await (PublicClient_getAddressRecord normalizedName "ETH") ;;
     match result with
     | None =>
         ret {| content := [ {| type := "text";
                                text := "Could not resolve " ++ normalizedName ++ " to an address." |} ];
                isError := false |}
     | Some result =>
         ret {| content := [ {| type := "text";
                                text := "The address for " ++ normalizedName ++ " is " ++ addr_value result |} ];
                isError := false |}
     end)
    (fun error =>
       errorMessage <- settle (handleEnsError error "name resolution") ;;
       ret {| content := [ {| type := "text"; text := errorMessage |} ];
              isError := true |}).

Definition reverseLookup (address : string) : Prog ServerResponse :=
  catch
    (if negb (isAddress address) then
       ret {| content := [ {| type := "text";
                              text := "Invalid Ethereum address: " ++ address |} ];
              isError := true |}
     else
       result <- await (PublicClient_getName address) ;;
       match result with
       | None =>
           ret {| content := [ {| type := "text";
                                  text := "No ENS name found for address " ++ address |} ];
                  isError := false |}
       | Some result =>
           ret {| content := [ {| type := "text";
                                  text := "The ENS name for " ++ address ++ " is " ++ rev_name result
                                          ++ (if negb (rev_match result)
                                              then " (Note: forward resolution does not match this address)"
                                              else "") |} ];
                  isError := false |}
       end)
    (fun error =>
       errorMessage <- settle (handleEnsError error "reverse lookup") ;;
       ret {| content := [ {| type := "text"; text := errorMessage |} ];
              isError := true |}).

Definition getTextRecord (name key : string) : Prog ServerResponse :=
  let normalizedName := normalizeName name in
  catch
    (value <- await (PublicClient_getTextRecord normalizedName key) ;;
     if negb (truthy_opt value) then
       ret {| content := [ {| type := "text";
                              text := "No '" ++ key ++ "' record found for " ++ normalizedName |} ];
              isError := false |}
     else
       ret {| content := [ {| type := "text";
                              text := "The '" ++ key ++ "' record for " ++ normalizedName ++ " is: "
                                      ++ match value with Some v => v | None => "" end |} ];
              isError := false |})
    (fun error =>
       errorMessage <- settle (handleEnsError error "getting records") ;;
       ret {| content := [ {| type := "text"; text := errorMessage |} ];
              isError := true |}).

Definition checkAvailability (name : string) : Prog ServerResponse :=
  let normalizedName := normalizeName name in
  catch
    (available <- await (PublicClient_getAvailable normalizedName) ;;
     if available : bool then
       ret {| content := [ {| type := "text";
                              text := "The name " ++ normalizedName ++ " is available for registration." |} ];
              isError := false |}
     else
       owner <- await (PublicClient_getOwner normalizedName) ;;
       ret {| content := [ {| type := "text";
                              text := "The name " ++ normalizedName ++ " is already registered. "
                                      ++ match owner with
                                         | Some owner => "Current owner: " ++ own_owner owner
                                         | None => ""
                                         end |} ];
              isError := false |})
    (fun error =>
       errorMessage <- settle (handleEnsError error "name availability check") ;;
       ret {| content := [ {| type := "text"; text := errorMessage |} ];
              isError := true |}).

Definition getAllRecords (name : string) : Prog ServerResponse :=
  let normalizedName := normalizeName name in
  catch
    (recordsResponse <- await (JustaName_subnames_getRecords normalizedName) ;;
     let records := records recordsResponse in
     let output := "Information for " ++ normalizedName ++ ":" ++ LF ++ LF in
     let output := output ++ "Resolver Address: " ++ resolverAddress records ++ LF in
     let output :=
       match texts records with
       | Some ((_ :: _) as recordsTexts) =>
           fold_left
             (fun output record =>
                output ++ "- " ++ txt_key record ++ ": " ++ txt_value record ++ LF)
             recordsTexts
             (output ++ LF ++ "Text Records:" ++ LF)
       | _ => output ++ LF ++ "No text records found."
       end in
     let output :=
       match coins records with
       | Some ((_ :: _) as recordsCoins) =>
           fold_left
             (fun output coin =>
                output ++ "- " ++ coin_name coin ++ " (" ++ coin_id coin ++ "): "
                       ++ coin_value coin ++ LF)
             recordsCoins
             (output ++ LF ++ "Addresses:" ++ LF)
       | _ => output ++ LF ++ "No cryptocurrency addresses found."
       end in
     let output :=
       match contentHash records with
       | Some hash =>
           output ++ LF ++ "Content Hash: " ++ decoded hash
                  ++ " (Protocol: " ++ protocolType hash ++ ")"
       | None => output
       end in
     owner <- await (PublicClient_getOwner normalizedName) ;;
     let output :=
       match owner with
       | Some owner =>
           let output := output ++ LF ++ LF ++ "Ownership Information:" in
           let output := output ++ LF ++ "- Owner: " ++ own_owner owner in
           let output :=
             match own_registrant owner with
             | Some registrant =>
                 if truthy registrant
                 then output ++ LF ++ "- Registrant: " ++ registrant
                 else output
             | None => output
             end in
           output ++ LF ++ "- Level: " ++ own_ownershipLevel owner
       | None => output
       end in
     expiry <- await (PublicClient_getExpiry name) ;;
     let output :=
       match expiry with
       | Some expiry =>
           let output := output ++ LF ++ LF ++ "Expiration Information:" in
           let output :=
             output ++ LF ++ "- Expires: " ++ toLocaleString (exp_date (exp_expiry expiry)) in
           let output := output ++ LF ++ "- Status: " ++ exp_status expiry in
           if String.eqb (exp_status expiry) "gracePeriod"
           then output ++ LF ++ "- Grace Period: "
                       ++ quotientToString (exp_gracePeriod expiry) 86400 ++ " days"
           else output
       | None => output
       end in
     ret {| content := [ {| type := "text"; text := output |} ];
            isError := false |})
    (fun error =>
       errorMessage <- settle (handleEnsError error "ens information") ;;
       ret {| content := [ {| type := "text"; text := errorMessage |} ];
              isError := true |}).

Definition getSubdomains (name : string) : Prog ServerResponse :=
  let normalizedName := normalizeName name in
  catch
    (subdomains <- await (PublicClient_getSubnames normalizedName) ;;
     match subdomains with
     | Some ((_ :: _) as subdomains) =>
         let output := "Subdomains for " ++ name ++ ":" ++ LF ++ LF in
         let output :=
           fold_left
             (fun output subdomain =>
                let output := output ++ "- " ++ sub_name subdomain in
                let output :=
                  match sub_owner subdomain with
                  | Some owner =>
                      if truthy owner
                      then output ++ " (Owner: " ++ owner ++ ")"
                      else output
                  | None => output
                  end in
                output ++ LF)
             subdomains output in
         ret {| content := [ {| type := "text"; text := output |} ];
                isError := false |}
     | _ =>
         ret {| content := [ {| type := "text";
                                text := "No subdomains found for " ++ name |} ];
                isError := false |}
     end)
    (fun error =>
       errorMessage <- settle (handleEnsError error "getting subdomains") ;;
       ret {| content := [ {| type := "text"; text := errorMessage |} ];
              isError := true |}).

Definition getNameHistory (name : string) : Prog ServerResponse :=
  let normalizedName := normalizeName name in
  catch
    (history <- await (PublicClient_getNameHistory normalizedName) ;;
     match history with
     | None =>
         ret {| content := [ {| type := "text";
                                text := "No history found for " ++ name |} ];
                isError := false |}
     | Some history =>
         let output := "History for " ++ name ++ ":" ++ LF ++ LF in
         let output :=
           match domainEvents history with
           | _ :: _ =>
               fold_left
                 (fun output event =>
                    let output :=
                      output ++ "- " ++ dom_type event ++ " at block "
                             ++ numberToString (dom_blockNumber event) ++ LF in
                    if String.eqb (dom_type event) "Transfer"
                       || String.eqb (dom_type event) "NewOwner"
                    then output ++ "  New owner: " ++ dom_owner event ++ LF
                    else if String.eqb (dom_type event) "NewResolver"
                    then output ++ "  New resolver: " ++ dom_resolver event ++ LF
                    else output)
                 (domainEvents history)
                 (output ++ "Domain Events:" ++ LF)
           | [] => output
           end in
         let output :=
           match registrationEvents history with
           | Some ((_ :: _) as events) =>
               fold_left
                 (fun output event =>
                    let output :=
                      output ++ "- " ++ reg_type event ++ " at block "
                             ++ numberToString (reg_blockNumber event) ++ LF in
                    if String.eqb (reg_type event) "NameRegistered"
                    then
                      let output :=
                        output ++ "  Registrant: " ++ reg_registrant event ++ LF in
                      output ++ "  Expiry Date: "
                             ++ toLocaleString (reg_expiryDate event * 1000) ++ LF
                    else if String.eqb (reg_type event) "NameRenewed"
                    then output ++ "  New Expiry Date: "
                                ++ toLocaleString (reg_expiryDate event * 1000) ++ LF
                    else output)
                 events
                 (output ++ LF ++ "Registration Events:" ++ LF)
           | _ => output
           end in
         let output :=
           match resolverEvents history with
           | Some ((_ :: _) as events) =>
               fold_left
                 (fun output event =>
                    let output :=
                      output ++ "- " ++ res_type event ++ " at block "
                             ++ numberToString (res_blockNumber event) ++ LF in
                    if String.eqb (res_type event) "AddrChanged"
                    then output ++ "  New address: " ++ res_addr event ++ LF
                    else if String.eqb (res_type event) "TextChanged"
                    then
                      let output := output ++ "  Key: " ++ res_key event ++ LF in
                      match res_value event with
                      | Some value =>
                          if truthy value
                          then output ++ "  Value: " ++ value ++ LF
                          else output
                      | None => output
                      end
                    else output)
                 events
                 (output ++ LF ++ "Resolver Events:" ++ LF)
           | _ => output
           end in
         ret {| content := [ {| type := "text"; text := output |} ];
                isError := false |}
     end)
    (fun error =>
       errorMessage <- settle (handleEnsError error "get name history") ;;
       ret {| content := [ {| type := "text"; text := errorMessage |} ];
              isError := true |}).

(** The parameter [duration], an integer number of years, defaults to 1
    when the caller leaves it out; the seconds are computed on doubles. *)
Definition getRegistrationPrice (name : string) (duration : option Z)
  : Prog ServerResponse :=
  let duration := match duration with Some d => d | None => 1%Z end in
  let normalizedName := normalizeName name in
  catch
    (let durationInSeconds :=
       times (times (times (times (Finite duration) (Finite 365)) (Finite 24))
                    (Finite 60))
             (Finite 60) in
     price <- await (PublicClient_getPrice normalizedName durationInSeconds) ;;
     ret {| content := [ {| type := "text";
                            text := ("Registration price for " ++ normalizedName ++ " for "
                                       ++ numberToString duration ++ " year(s):" ++ LF)
                                    ++ ("- Base Price: " ++ formatEther (base price) ++ " ETH" ++ LF)
                                    ++ ("- Premium: " ++ formatEther (premium price) ++ " ETH" ++ LF)
                                    ++ ("- Total: " ++ formatEther (base price + premium price)
                                          ++ " ETH") |} ];
            isError := false |})
    (fun error =>
       errorMessage <- settle (handleEnsError error "get registration price") ;;
       ret {| content := [ {| type := "text"; text := errorMessage |} ];
              isError := true |}).

End Handlers.

End Utils.

(* ===================================================================== *)
(** ** [src/index.ts]: the registered tools *)
(* ===================================================================== *)

Module Server.
Import Js Utils.

(** A tool invocation with its validated parameters. *)
Inductive toolCall : Type :=
| resolve_name (name : string)
| reverse_lookup (address : string)
| get_text_record (name key : string)
| check_availability (name : string)
| get_all_records (name : string)
| get_subdomains (name : string)
| get_name_history (name : string)
| get_registration_price (name : string) (duration : option Z).

Definition dispatch {rt : Runtime} (t : toolCall) : Prog ServerResponse :=
  match t with
  | resolve_name name => resolveName name
  | reverse_lookup address => reverseLookup address
  | get_text_record name key => getTextRecord name key
  | check_availability name => checkAvailability name
  | get_all_records name => getAllRecords name
  | get_subdomains name => getSubdomains name
  | get_name_history name => getNameHistory name
  | get_registration_price name duration => getRegistrationPrice name duration
  end.

(** The label each handler passes to [handleEnsError]. *)
Definition operationLabel (t : toolCall) : string :=
  match t with
  | resolve_name _ => "name resolution"
  | reverse_lookup _ => "reverse lookup"
  | get_text_record _ _ => "getting records"
  | check_availability _ => "name availability check"
  | get_all_records _ => "ens information"
  | get_subdomains _ => "getting subdomains"
  | get_name_history _ => "get name history"
  | get_registration_price _ _ => "get registration price"
  end.

(** The name parameter of a tool, for the tools that take one. *)
Definition toolName (t : toolCall) : option string :=
  match t with
  | resolve_name name => Some name
  | reverse_lookup _ => None
  | get_text_record name _ => Some name
  | check_availability name => Some name
  | get_all_records name => Some name
  | get_subdomains name => Some name
  | get_name_history name => Some name
  | get_registration_price name _ => Some name
  end.

End Server.

(* ===================================================================== *)
(** ** The specification's vocabulary *)
(* ===================================================================== *)

Module Spec.
Import Js Utils.

(** The four classes of the specification's error taxonomy. *)
Inductive Category : Type :=
| NetworkError
| EnsProtocolError
| InvalidInputError
| UnknownError.

(** The cascade as the specification lists it: the substrings of each
    rule, in order, with the class the rule yields. *)
Definition cascade : list (list string * Category) :=
  [ (["fetch failed"; "timeout"; "network"; "HTTP request failed"], NetworkError);
    (["ENS"], EnsProtocolError);
    (["invalid"; "parameter"], InvalidInputError) ].

(** First match wins; a message no rule matches is an [UnknownError]. *)
Definition classify (message : string) : Category :=
  match find (fun rule => existsb (fun sub => includes message sub) (fst rule)) cascade with
  | Some rule => snd rule
  | None => UnknownError
  end.

(** The message template of each class. *)
Definition template (cat : Category) (operationLabel message : string) : string :=
  match cat with
  | NetworkError =>
      "Network error while accessing Ethereum providers. Please check your internet connection or try again later. Technical details: " ++ message
  | EnsProtocolError => "ENS error: " ++ message
  | InvalidInputError => "Invalid input: " ++ message
  | UnknownError => "Error during " ++ operationLabel ++ ": " ++ message
  end.

(** The envelope of a classified failure. *)
Definition errorEnvelope (message : string) : ServerResponse :=
  {| content := [ {| type := "text"; text := message |} ]; isError := true |}.

(** The envelope of a successful outcome. *)
Definition successEnvelope (message : string) : ServerResponse :=
  {| content := [ {| type := "text"; text := message |} ]; isError := false |}.

(** What a handler's [catch] block settles to for the rejection [error]:
    the error envelope around the classifier's text, or what the
    classifier throws. *)
Definition catchOutcome (label : string) (error : thrown)
  : outcome ServerResponse :=
  match handleEnsError error label with
  | Returned message => Returned (errorEnvelope message)
  | Threw raised => Threw raised
  end.

(** A program whose only rejections are those of the client calls it
    awaits. *)
Inductive upstreamOnly {A : Type} : Prog A -> Prop :=
| uo_Ret (a : A) : upstreamOnly (Ret a)
| uo_Await (c : call) (k : outcome (response c) -> Prog A) :
    (forall e, k (Threw e) = Throw e) ->
    (forall r, upstreamOnly (k (Returned r))) ->
    upstreamOnly (Await c k).

(** A program all of whose client calls, however the earlier ones settle,
    satisfy [P]. *)
Inductive callsSatisfy {A : Type} (P : call -> Prop) : Prog A -> Prop :=
| cs_Ret (a : A) : callsSatisfy P (Ret a)
| cs_Throw (e : thrown) : callsSatisfy P (Throw e)
| cs_Await (c : call) (k : outcome (response c) -> Prog A) :
    P c ->
    (forall o, callsSatisfy P (k o)) ->
    callsSatisfy P (Await c k).

(** A program all of whose resolved values, however the client calls
    settle, satisfy [Q]. *)
Fixpoint resolvesIn {A : Type} (Q : A -> Prop) (p : Prog A) : Prop :=
  match p with
  | Ret a => Q a
  | Throw _ => True
  | Await c k => forall o, resolvesIn Q (k o)
  end.

(** A program that makes at most [n] client calls. *)
Fixpoint atMost {A : Type} (n : nat) (p : Prog A) {struct p} : Prop :=
  match p with
  | Ret _ => True
  | Throw _ => True
  | Await c k =>
      match n with
      | O => False
      | S n' => forall o, atMost n' (k o)
      end
  end.

(** No call of the trace rejected. *)
Definition allResolved (trace : list event) : Prop :=
  Forall (fun ev => snd ev = None) trace.

(** The most client calls one invocation of each tool can make. *)
Definition callBudget (t : Server.toolCall) : nat :=
  match t with
  | Server.check_availability _ => 2
  | Server.get_all_records _ => 3
  | _ => 1
  end.


(** What an error flag on a tool's own result means: only [reverseLookup]
    resolves to an error envelope by itself, for an address [isAddress]
    rejects. *)
Definition ownError {rt : Runtime}
           (t : Server.toolCall) (envelope : ServerResponse) : Prop :=
  isError envelope = true ->
  exists address,
    t = Server.reverse_lookup address /\ isAddress address = false.

(** The line [getSubdomains] writes for one subdomain. *)
Definition subdomainLine (subdomain : Subname) : string :=
  "- " ++ sub_name subdomain
       ++ match sub_owner subdomain with
          | Some owner => if truthy owner then " (Owner: " ++ owner ++ ")" else ""
          | None => ""
          end
       ++ LF.

(** Lines written one after the other. *)
Definition lines (ls : list string) : string := fold_right append "" ls.

(** The lines [getNameHistory] writes for one event of each kind. *)
Definition domainEventLines {rt : Runtime} (event : DomainEvent) : string :=
  ("- " ++ dom_type event ++ " at block "
        ++ numberToString (dom_blockNumber event) ++ LF)
  ++ (if String.eqb (dom_type event) "Transfer"
         || String.eqb (dom_type event) "NewOwner"
      then "  New owner: " ++ dom_owner event ++ LF
      else if String.eqb (dom_type event) "NewResolver"
      then "  New resolver: " ++ dom_resolver event ++ LF
      else "").

Definition registrationEventLines {rt : Runtime} (event : RegistrationEvent)
  : string :=
  ("- " ++ reg_type event ++ " at block "
        ++ numberToString (reg_blockNumber event) ++ LF)
  ++ (if String.eqb (reg_type event) "NameRegistered"
      then ("  Registrant: " ++ reg_registrant event ++ LF)
           ++ "  Expiry Date: " ++ toLocaleString (reg_expiryDate event * 1000) ++ LF
      else if String.eqb (reg_type event) "NameRenewed"
      then "  New Expiry Date: " ++ toLocaleString (reg_expiryDate event * 1000) ++ LF
      else "").

Definition resolverEventLines {rt : Runtime} (event : ResolverEvent) : string :=
  ("- " ++ res_type event ++ " at block "
        ++ numberToString (res_blockNumber event) ++ LF)
  ++ (if String.eqb (res_type event) "AddrChanged"
      then "  New address: " ++ res_addr event ++ LF
      else if String.eqb (res_type event) "TextChanged"
      then ("  Key: " ++ res_key event ++ LF)
           ++ match res_value event with
              | Some value => if truthy value then "  Value: " ++ value ++ LF else ""
              | None => ""
              end
      else "").

(** A titled block of lines, left out altogether when there is no item. *)
Definition block {X : Type} (title : string) (line : X -> string)
           (items : list X) : string :=
  match items with
  | [] => ""
  | _ :: _ => title ++ lines (map line items)
  end.

(** An array that may be missing, as the list of its items. *)
Definition items {X : Type} (array : option (list X)) : list X :=
  match array with
  | Some l => l
  | None => []
  end.

(** The parts of the text [getAllRecords] writes. *)
Definition textRecordLine (record : TextRecord) : string :=
  "- " ++ txt_key record ++ ": " ++ txt_value record ++ LF.

Definition coinRecordLine (coin : CoinRecord) : string :=
  "- " ++ coin_name coin ++ " (" ++ coin_id coin ++ "): " ++ coin_value coin ++ LF.

(** A titled block of lines, replaced by [fallback] when there is no item. *)
Definition blockOr {X : Type} (title : string) (line : X -> string)
           (fallback : string) (items : list X) : string :=
  match items with
  | [] => fallback
  | _ :: _ => title ++ lines (map line items)
  end.

Definition contentHashPart (hash : option ContentHash) : string :=
  match hash with
  | Some hash =>
      LF ++ "Content Hash: " ++ decoded hash
         ++ " (Protocol: " ++ protocolType hash ++ ")"
  | None => ""
  end.

Definition ownershipPart (owner : option Ownership) : string :=
  match owner with
  | Some owner =>
      (LF ++ LF ++ "Ownership Information:")
      ++ (LF ++ "- Owner: " ++ own_owner owner)
      ++ match own_registrant owner with
         | Some registrant =>
             if truthy registrant then LF ++ "- Registrant: " ++ registrant else ""
         | None => ""
         end
      ++ (LF ++ "- Level: " ++ own_ownershipLevel owner)
  | None => ""
  end.

Definition expiryPart {rt : Runtime} (expiry : option Expiry) : string :=
  match expiry with
  | Some expiry =>
      (LF ++ LF ++ "Expiration Information:")
      ++ (LF ++ "- Expires: " ++ toLocaleString (exp_date (exp_expiry expiry)))
      ++ (LF ++ "- Status: " ++ exp_status expiry)
      ++ (if String.eqb (exp_status expiry) "gracePeriod"
          then LF ++ "- Grace Period: "
                  ++ quotientToString (exp_gracePeriod expiry) 86400 ++ " days"
          else "")
  | None => ""
  end.

End Spec.

(* ===================================================================== *)
(** ** Sample runtimes and upstreams *)
(* ===================================================================== *)

Module Samples.
Import Js Utils.

Definition is_hex (c : ascii) : bool :=
  let n := nat_of_ascii c in
  (Nat.leb 48 n && Nat.leb n 57)
  || (Nat.leb 65 n && Nat.leb n 70)
  || (Nat.leb 97 n && Nat.leb n 102).

(** A stand-in for [ethers.isAddress]: [0x] and forty hexadecimal digits. *)
Definition hexAddress (s : string) : bool :=
  prefix "0x" s
  && Nat.eqb (String.length s) 42
  && forallb is_hex (list_ascii_of_string (substring 2 40 s)).

Definition sampleRuntime : Runtime :=
  {| isAddress := hexAddress;
     formatEther := fun wei => "0.0";
     numberToString := fun n => "0";
     quotientToString := fun a b => "0";
     toLocaleString := fun ms => "1/1/1970, 12:00:00 AM" |}.

(** An upstream on which every query succeeds and finds nothing. *)
Definition nothingFound : upstream :=
  fun _ c =>
    match c return outcome (response c) with
    | PublicClient_getAddressRecord _ _ => Returned None
    | PublicClient_getName _ => Returned None
    | PublicClient_getTextRecord _ _ => Returned None
    | PublicClient_getAvailable _ => Returned false
    | PublicClient_getOwner _ => Returned None
    | PublicClient_getExpiry _ => Returned None
    | PublicClient_getSubnames _ => Returned None
    | PublicClient_getNameHistory _ => Returned None
    | PublicClient_getPrice _ _ => Returned {| base := 0; premium := 0 |}
    | JustaName_subnames_getRecords _ =>
        Returned {| records := {| resolverAddress := "0x0";
                                  texts := None;
                                  coins := None;
                                  contentHash := None |} |}
    end.

(** An upstream whose address records all are [result]. *)
Definition addressUpstream (result : option AddressRecord) : upstream :=
  fun past c =>
    match c return outcome (response c) with
    | PublicClient_getAddressRecord _ _ => Returned result
    | c' => nothingFound past c'
    end.

(** What [Object.create(null)] is as a thrown value. *)
Definition objectWithoutPrototype : thrown :=
  Unconvertible conversionTypeError.

(** An upstream on which every call rejects with [error]. *)
Definition failingUpstream (error : thrown) : upstream :=
  fun _ c => Threw error.

(** An upstream on which every name is available. *)
Definition availableUpstream : upstream :=
  fun past c =>
    match c return outcome (response c) with
    | PublicClient_getAvailable _ => Returned true
    | c' => nothingFound past c'
    end.

(** An upstream whose text records all are [value]. *)
Definition textUpstream (value : option string) : upstream :=
  fun past c =>
    match c return outcome (response c) with
    | PublicClient_getTextRecord _ _ => Returned value
    | c' => nothingFound past c'
    end.

(** An upstream whose reverse records all are [result]. *)
Definition nameUpstream (result : option NameResult) : upstream :=
  fun past c =>
    match c return outcome (response c) with
    | PublicClient_getName _ => Returned result
    | c' => nothingFound past c'
    end.

(** An upstream on which every name has the subnames [subnames]. *)
Definition subnamesUpstream (subnames : option (list Subname)) : upstream :=
  fun past c =>
    match c return outcome (response c) with
    | PublicClient_getSubnames _ => Returned subnames
    | c' => nothingFound past c'
    end.

(** An upstream on which every name has the history [history]. *)
Definition historyUpstream (history : option NameHistory) : upstream :=
  fun past c =>
    match c return outcome (response c) with
    | PublicClient_getNameHistory _ => Returned history
    | c' => nothingFound past c'
    end.

(** A history of one transfer. *)
Definition oneTransfer : NameHistory :=
  {| domainEvents := [ {| dom_type := "Transfer"; dom_blockNumber := 0;
                          dom_owner := "0xabc"; dom_resolver := "" |} ];
     registrationEvents := None;
     resolverEvents := Some [] |}.

End Samples.

(* ===================================================================== *)
(** ** Facts about the string primitives *)
(* ===================================================================== *)

Module JsFacts.
Import Js.

Lemma split_cons (sep : ascii) (s : string) :
  exists piece rest, split sep s = piece :: rest.
Proof.
  induction s as [|c s IH]; simpl.
  - now exists EmptyString, [].
  - destruct (Ascii.eqb c sep).
    + now exists EmptyString, (split sep s).
    + destruct IH as (piece & rest & ->). now exists (String c piece), rest.
Qed.

(** Joining the pieces with the separator gives the string back. *)
Lemma concat_split (sep : ascii) (s : string) :
  String.concat (String sep EmptyString) (split sep s) = s.
Proof.
  induction s as [|c s IH]; simpl; [reflexivity|].
  destruct (Ascii.eqb_spec c sep) as [->|Hne].
  - destruct (split_cons sep s) as (piece & rest & E).
    rewrite E in *. simpl in *. now rewrite IH.
  - destruct (split_cons sep s) as (piece & rest & E).
    rewrite E in *. destruct rest; simpl in *; now rewrite IH.
Qed.

Lemma length_split (sep : ascii) (s : string) :
  List.length (split sep s) = S (count sep s).
Proof.
  induction s as [|c s IH]; simpl; [reflexivity|].
  destruct (Ascii.eqb c sep); simpl.
  - now rewrite IH.
  - destruct (split_cons sep s) as (piece & rest & E).
    rewrite E in *. simpl in *. exact IH.
Qed.

(** No piece contains the separator. *)
Lemma split_pieces (sep : ascii) (s : string) :
  Forall (fun piece => count sep piece = 0) (split sep s).
Proof.
  induction s as [|c s IH]; simpl.
  - now constructor.
  - destruct (Ascii.eqb c sep) eqn:E.
    + now constructor.
    + destruct (split_cons sep s) as (piece & rest & E').
      rewrite E' in *. inversion IH; subst.
      constructor; [simpl; now rewrite E | assumption].
Qed.

Lemma prefix_spec (sub s : string) :
  prefix sub s = true <-> exists q, s = sub ++ q.
Proof.
  revert s. induction sub as [|a sub IH]; intros [|b s]; simpl.
  - split; [intros _; now exists EmptyString | reflexivity].
  - split; [intros _; now exists (String b s) | reflexivity].
  - split; [discriminate | intros [q E]; discriminate E].
  - destruct (ascii_dec a b) as [->|Hne].
    + rewrite IH. split; intros [q E]; exists q; congruence.
    + split; [discriminate | intros [q E]; congruence].
Qed.

(** [includes] is the substring test. *)
Lemma includes_spec (s sub : string) :
  includes s sub = true <-> exists p q, s = p ++ sub ++ q.
Proof.
  induction s as [|c s IH]; cbn [includes]; rewrite orb_true_iff, prefix_spec.
  - split.
    + intros [[q E]|H]; [|discriminate]. now exists EmptyString, q.
    + intros ([|c p] & q & E); [|discriminate E]. left. now exists q.
  - rewrite IH. split.
    + intros [[q E]|(p & q & E)].
      * now exists EmptyString, q.
      * exists (String c p), q. simpl. now rewrite E.
    + intros ([|c' p] & q & E); simpl in E.
      * left. now exists q.
      * right. exists p, q. congruence.
Qed.

Lemma substring_skip (p t : string) :
  substring (String.length p) (String.length t) (p ++ t) = t.
Proof.
  induction p as [|c p IH]; simpl; [|exact IH].
  induction t as [|d t IHt]; simpl; [reflexivity | now rewrite IHt].
Qed.

Lemma length_append (p t : string) :
  String.length (p ++ t) = String.length p + String.length t.
Proof. induction p; simpl; congruence. Qed.

Lemma substring_cut (s : string) (k : nat) :
  k <= String.length s ->
  s = substring 0 k s ++ substring k (String.length s - k) s.
Proof.
  revert k. induction s as [|c s IH]; intros [|k] Hk; simpl in *;
    try reflexivity; try lia.
  - f_equal. clear. induction s as [|d s IHs]; simpl; congruence.
  - f_equal. apply IH. lia.
Qed.

(** [endsWith] is the suffix test. *)
Lemma endsWith_spec (s suffix : string) :
  endsWith s suffix = true <-> exists p, s = p ++ suffix.
Proof.
  unfold endsWith. split.
  - destruct (Nat.leb_spec (String.length suffix) (String.length s)) as [Hle|];
      [|discriminate].
    intros E. apply String.eqb_eq in E.
    exists (substring 0 (String.length s - String.length suffix) s).
    pose proof (substring_cut s (String.length s - String.length suffix)) as C.
    replace (String.length s - (String.length s - String.length suffix))
      with (String.length suffix) in C by lia.
    rewrite E in C. apply C. lia.
  - intros [p ->]. rewrite length_append.
    destruct (Nat.leb_spec (String.length suffix)
                           (String.length p + String.length suffix)); [|lia].
    replace (String.length p + String.length suffix - String.length suffix)
      with (String.length p) by lia.
    rewrite substring_skip. apply String.eqb_refl.
Qed.

Example split_sample :
  split "," "a, b,,c" = ["a"; " b"; ""; "c"] /\ split "," "" = [""].
Proof. split; reflexivity. Qed.

Example trim_sample :
  trim (" " ++ String "009"%char "https://x y " ++ String "010"%char "") = "https://x y".
Proof. reflexivity. Qed.

Example endsWith_sample :
  endsWith "vitalik.eth" ".eth" = true /\ endsWith "eth" ".eth" = false
  /\ endsWith "vitalik.ethereum" ".eth" = false.
Proof. repeat split. Qed.

Lemma includes_char (c : ascii) (s : string) :
  includes s (String c EmptyString) = true <-> count c s <> 0.
Proof.
  induction s as [|d s IH]; simpl.
  - split; [discriminate | congruence].
  - destruct (ascii_dec c d) as [->|Hne].
    + rewrite Ascii.eqb_refl. destruct s; simpl; split; auto; lia.
    + assert (E : Ascii.eqb d c = false) by (apply Ascii.eqb_neq; congruence).
      rewrite E. simpl. exact IH.
Qed.

Lemma trimStart_spec (s : string) :
  exists l, s = l ++ trimStart s
            /\ all_ws l = true /\ starts_ws (trimStart s) = false.
Proof.
  induction s as [|c s (l & E & Hl & Hs)]; simpl.
  - now exists EmptyString.
  - destruct (is_ws c) eqn:W.
    + exists (String c l). simpl. rewrite W, Hl. repeat split; auto.
      now rewrite <- E.
    + exists EmptyString. simpl. auto.
Qed.

Lemma trimEnd_spec (s : string) :
  exists r, s = trimEnd s ++ r
            /\ all_ws r = true /\ ends_ws (trimEnd s) = false.
Proof.
  induction s as [|c s (r & E & Hr & He)]; simpl.
  - now exists EmptyString.
  - destruct (trimEnd s) as [|d t] eqn:T.
    + destruct (is_ws c) eqn:W.
      * exists (String c r). simpl in *. rewrite W, Hr. subst s. auto.
      * exists r. simpl in *. rewrite W. subst s. auto.
    + exists r. simpl in *. rewrite <- E. auto.
Qed.

Lemma trimEnd_starts (s : string) :
  starts_ws s = false -> starts_ws (trimEnd s) = false.
Proof.
  destruct s as [|c s]; simpl; [auto|]. intros W.
  destruct (trimEnd s); [rewrite W|]; simpl; auto.
Qed.

Lemma append_assoc (a b c : string) : (a ++ b) ++ c = a ++ b ++ c.
Proof. induction a; simpl; congruence. Qed.

(** [trim] removes exactly the surrounding white space. *)
Lemma trim_Trimmed (s : string) : Trimmed s (trim s).
Proof.
  unfold Trimmed, trim.
  destruct (trimStart_spec s) as (l & E & Hl & Hs).
  destruct (trimEnd_spec (trimStart s)) as (r & E' & Hr & He).
  exists l, r. repeat split; auto using trimEnd_starts.
  now rewrite <- E', <- E.
Qed.

End JsFacts.

(* ===================================================================== *)
(** ** The provider list resolver *)
(* ===================================================================== *)

Module ProviderList.
Import Js JsFacts Clients.

Lemma truthy_nonempty (s : string) : truthy s = true <-> s <> "".
Proof.
  unfold truthy. destruct (String.eqb_spec s ""); simpl; split; congruence.
Qed.

Lemma includes_truthy (s sub : string) :
  sub <> "" -> includes s sub = true -> truthy s = true.
Proof.
  intros Hsub H. destruct s; [|reflexivity].
  destruct sub; [congruence | discriminate H].
Qed.

Lemma filter_remove (x : string) (l : list string) :
  filter (fun url => negb (String.eqb url x)) l = remove string_dec x l.
Proof.
  induction l as [|y l IH]; simpl; [reflexivity|].
  destruct (string_dec x y) as [->|Hne].
  - now rewrite String.eqb_refl.
  - assert (E : String.eqb y x = false) by (apply String.eqb_neq; congruence).
    rewrite E. simpl. now rewrite IH.
Qed.

Lemma NoDup_DEFAULT_PROVIDERS : NoDup DEFAULT_PROVIDERS.
Proof.
  unfold DEFAULT_PROVIDERS.
  repeat (constructor; [simpl; intuition discriminate|]). constructor.
Qed.

(** C3. A configured override that contains a comma is returned as the list
    of its comma-separated pieces, each with its surrounding white space
    removed, in the order written; nothing is appended, so the list has one
    entry more than the override has commas. *)
Theorem getProviderUrls_comma_list (env : string) :
  includes env "," = true ->
  getProviderUrls (Some env) = map trim (split "," env)
  /\ String.concat "," (split "," env) = env
  /\ Forall (fun piece => includes piece "," = false) (split "," env)
  /\ Forall2 Trimmed (split "," env) (getProviderUrls (Some env))
  /\ List.length (getProviderUrls (Some env)) = S (count "," env).
Proof.
  intros H.
  assert (E : getProviderUrls (Some env) = map trim (split "," env)).
  { unfold getProviderUrls.
    rewrite (includes_truthy env ","), H by (assumption || discriminate).
    reflexivity. }
  rewrite E. repeat split.
  - apply concat_split.
  - eapply Forall_impl; [|apply split_pieces].
    intros piece Hc. simpl in Hc.
    destruct (includes piece ",") eqn:I; [|reflexivity].
    apply includes_char in I. contradiction.
  - generalize (split "," env) as pieces.
    induction pieces; simpl; constructor; auto using trim_Trimmed.
  - now rewrite length_map, length_split.
Qed.

Lemma getProviderUrls_comma_list_witness :
  getProviderUrls (Some " https://rpc.one.example ,https://eth.drpc.org")
  = ["https://rpc.one.example"; "https://eth.drpc.org"].
Proof.
  destruct (getProviderUrls_comma_list
              " https://rpc.one.example ,https://eth.drpc.org" eq_refl)
    as [E _].
  rewrite E. reflexivity.
Defined.

(** C4. A non-empty override without a comma comes first, followed by the
    built-in defaults without the entries equal to it, in their own order;
    with no override the four built-in defaults are returned as they are. *)
Theorem getProviderUrls_override_then_defaults :
  (forall env : string,
      env <> "" -> includes env "," = false ->
      getProviderUrls (Some env) = env :: remove string_dec env DEFAULT_PROVIDERS)
  /\ getProviderUrls None = DEFAULT_PROVIDERS
  /\ List.length (getProviderUrls None) = 4.
Proof.
  split; [|split; reflexivity].
  intros env Hne Hc. unfold getProviderUrls.
  rewrite Hc, andb_false_r.
  apply truthy_nonempty in Hne. rewrite Hne.
  now rewrite filter_remove.
Qed.

Lemma getProviderUrls_override_then_defaults_witness :
  getProviderUrls (Some "https://eth.llamarpc.com")
  = [ "https://eth.llamarpc.com"; "https://eth.drpc.org";
      "https://ethereum.publicnode.com"; "https://rpc.ankr.com/eth" ].
Proof.
  rewrite (proj1 getProviderUrls_override_then_defaults
             "https://eth.llamarpc.com");
    [reflexivity | discriminate | reflexivity].
Defined.

(** The tail of the single-override list is the defaults that differ from
    the override. *)
Lemma remove_defaults_spec (env d : string) :
  In d (remove string_dec env DEFAULT_PROVIDERS)
  <-> In d DEFAULT_PROVIDERS /\ d <> env.
Proof.
  split.
  - intros H. apply in_remove in H. exact H.
  - intros [H Hne]. now apply in_in_remove.
Qed.

(** C5, as the specification states it, fails: a comma-separated override
    is returned as written, repeated entries included. *)
Lemma getProviderUrls_duplicates :
  ~ (forall envProvider : option string,
        getProviderUrls envProvider <> []
        /\ NoDup (getProviderUrls envProvider)).
Proof.
  intros H. destruct (H (Some "https://eth.drpc.org,https://eth.drpc.org")) as [_ N].
  vm_compute in N. inversion N as [|x l Hin _]; subst.
  apply Hin. now left.
Qed.

(** C5, amended. The provider list is never empty; without an override, and
    with an override that has no comma, it has no repeated entry. *)
Theorem getProviderUrls_nonempty_nodup (envProvider : option string) :
  getProviderUrls envProvider <> []
  /\ ((forall env, envProvider = Some env -> includes env "," = false) ->
      NoDup (getProviderUrls envProvider)).
Proof.
  split.
  - destruct envProvider as [env|]; simpl; [|discriminate].
    destruct (truthy env && includes env ",").
    + destruct (split_cons "," env) as (piece & rest & ->). discriminate.
    + destruct (truthy env); discriminate.
  - intros Hc. destruct envProvider as [env|]; unfold getProviderUrls.
    + rewrite (Hc env eq_refl), andb_false_r.
      destruct (truthy env); [|apply NoDup_DEFAULT_PROVIDERS].
      rewrite filter_remove. constructor.
      * apply remove_In.
      * rewrite <- filter_remove. apply NoDup_filter, NoDup_DEFAULT_PROVIDERS.
    + apply NoDup_DEFAULT_PROVIDERS.
Qed.

Lemma getProviderUrls_nonempty_nodup_witness :
  NoDup (getProviderUrls (Some "https://rpc.ankr.com/eth")).
Proof.
  apply (proj2 (getProviderUrls_nonempty_nodup (Some "https://rpc.ankr.com/eth"))).
  intros env E. injection E as <-. reflexivity.
Defined.

End ProviderList.

(* ===================================================================== *)
(** ** The client factory and its rotation *)
(* ===================================================================== *)

Module Rotation.
Import Js Clients.

Lemma createJustaNameClient_allocated (envProvider : option string) (h : Heap) :
  let '(f, h') := createJustaNameClient envProvider h in
  allocated f h'
  /\ held f = client f
  /\ providerUrl (held f) = index (getProviderUrls envProvider) 0.
Proof. unfold allocated. simpl. auto. Qed.

(** C7. [retry currentIndex] rejects with "All providers failed" exactly
    when [currentIndex >= providerUrls.length - 1], and then neither the
    held client nor anything else changes; otherwise it allocates a new
    client for chain 1 bound to [providerUrls[currentIndex + 1]], makes it
    the held client, and resolves to it. *)
Theorem retry_rotates (currentIndex : Z) (f : Factory) (h : Heap) :
  let n := Z.of_nat (List.length (providerUrls f)) in
  ((currentIndex >= n - 1)%Z ->
   retry (Some currentIndex) f h
   = (Threw (ErrorInstance "Error" "All providers failed"), f, h))
  /\ ((currentIndex < n - 1)%Z ->
      exists c : JustaNameClient,
        retry (Some currentIndex) f h
        = (Returned c,
           {| providerUrls := providerUrls f; held := c; client := client f |},
           {| nextId := S (nextId h) |})
        /\ providerUrl c = index (providerUrls f) (currentIndex + 1)
        /\ chainId c = 1%Z
        /\ clientId c = nextId h)
  /\ ((exists e, fst (fst (retry (Some currentIndex) f h)) = Threw e)
      <-> (currentIndex >= n - 1)%Z).
Proof.
  intros n. unfold retry. fold n.
  destruct (Z.geb_spec currentIndex (n - 1)) as [Hge|Hlt].
  - split; [reflexivity|]. split; [lia|].
    split; [lia|]. intros _. simpl. eauto.
  - split; [lia|]. split.
    + intros _. simpl. eexists. repeat split.
    + simpl. split; [intros [e He]; discriminate | lia].
Qed.

Lemma retry_rotates_witness :
  let f := fst (createJustaNameClient None (mkHeap 0)) in
  retry (Some 3%Z) f (mkHeap 1)
  = (Threw (ErrorInstance "Error" "All providers failed"), f, mkHeap 1)
  /\ exists c, fst (fst (retry (Some 0%Z) f (mkHeap 1))) = Returned c
               /\ providerUrl c = Some "https://eth.llamarpc.com".
Proof.
  intros f. split.
  - apply (proj1 (retry_rotates 3 f (mkHeap 1))). simpl. lia.
  - destruct (proj1 (proj2 (retry_rotates 0 f (mkHeap 1)))) as (c & E & U & _).
    + simpl. lia.
    + exists c. rewrite E, U. split; reflexivity.
Defined.

(** Called without an argument, [retry] starts from index 0. *)
Lemma retry_default (f : Factory) (h : Heap) :
  retry None f h = retry (Some 0%Z) f h.
Proof. reflexivity. Qed.

(** The client a successful rotation returns is a new object: it differs
    from every client the factory referred to, the [client] property of the
    object the factory returned keeps its value, and the factory stays
    well formed. *)
Lemma retry_fresh (currentIndex : option Z) (f f' : Factory) (h h' : Heap)
      (c : JustaNameClient) :
  allocated f h ->
  retry currentIndex f h = (Returned c, f', h') ->
  c <> held f /\ c <> client f /\ held f' = c /\ client f' = client f
  /\ allocated f' h'.
Proof.
  unfold allocated, retry. intros [H1 H2].
  destruct (_ >=? _)%Z; [discriminate|].
  simpl. intros E. injection E as <- <- <-. simpl.
  repeat split; try lia; intros E; rewrite <- E in *; simpl in *; lia.
Qed.

End Rotation.

(* ===================================================================== *)
(** ** The error classifier *)
(* ===================================================================== *)

Module Classifier.
Import Js Utils Spec.

Ltac split_includes message :=
  repeat match goal with
         | |- context [includes message ?sub] => destruct (includes message sub)
         end.

(** C2, as the specification states it, fails for an [Error] whose message
    is empty: the last branch then interpolates [String(error)], here the
    error's name, and not the empty message. *)
Lemma handleEnsError_empty_message :
  ~ (forall name message operationLabel : string,
        handleEnsError (ErrorInstance name message) operationLabel
        = Returned (template (classify message) operationLabel message)).
Proof.
  intros H. specialize (H "Error" "" "name resolution").
  vm_compute in H. discriminate H.
Qed.

(** C2, amended. On an [Error] the classifier is the first-match cascade
    over the error's message, each class with its template; the message is
    interpolated, and an empty message (which no rule matches) is replaced
    by [String(error)]. The four sample messages of the specification are
    classified as it says. *)
Theorem handleEnsError_cascade (name message operationLabel : string) :
  handleEnsError (ErrorInstance name message) operationLabel
  = Returned (template (classify message) operationLabel
                (if String.eqb message "" then Error_toString name message
                 else message))
  /\ String_ (ErrorInstance name message)
     = Returned (Error_toString name message)
  /\ handleEnsError (ErrorInstance name "fetch failed: timeout") operationLabel
     = Returned "Network error while accessing Ethereum providers. Please check your internet connection or try again later. Technical details: fetch failed: timeout"
  /\ handleEnsError (ErrorInstance name "invalid parameter: name") operationLabel
     = Returned "Invalid input: invalid parameter: name"
  /\ handleEnsError (ErrorInstance name "ENS: name not found") operationLabel
     = Returned "ENS error: ENS: name not found"
  /\ handleEnsError (ErrorInstance name "boom") operationLabel
     = Returned ("Error during " ++ operationLabel ++ ": boom").
Proof.
  split; [|repeat split; reflexivity].
  destruct (String.eqb_spec message "") as [->|Hne].
  - reflexivity.
  - unfold handleEnsError, classifyMessage, classify, cascade.
    assert (T : truthy message = true).
    { unfold truthy. now destruct (String.eqb_spec message ""). }
    rewrite T. cbn [find existsb fst snd].
    split_includes message; reflexivity.
Qed.

Lemma non_Error_unclassified (error : thrown) (operation : string)
      (cat : Category) (label message : string) :
  instanceofError error = false ->
  cat <> UnknownError ->
  handleEnsError error operation <> Returned (template cat label message).
Proof.
  intros Hi Hcat.
  destruct error as [name msg|str raised|str|raised]; try discriminate Hi;
    unfold handleEnsError; cbn.
  - destruct cat; try congruence; discriminate.
  - destruct cat; try congruence; discriminate.
Qed.

(** The classifying branches are entered by instances of [Error] only. *)
Lemma classified_is_Error (error : thrown) (operation : string)
      (cat : Category) (label message : string) :
  cat <> UnknownError ->
  handleEnsError error operation = Returned (template cat label message) ->
  instanceofError error = true.
Proof.
  intros Hcat E. destruct (instanceofError error) eqn:Hi; [reflexivity|].
  now apply (non_Error_unclassified error operation cat label message Hi Hcat) in E.
Qed.




End Classifier.

(* ===================================================================== *)
(** ** The operation handlers *)
(* ===================================================================== *)

Module Handlers.
Import Js Utils Server Spec.

Lemma normalizeName_spec (name : string) :
  (endsWith name ".eth" = false -> normalizeName name = name ++ ".eth")
  /\ (endsWith name ".eth" = true -> normalizeName name = name).
Proof. unfold normalizeName. destruct (endsWith name ".eth"); split; congruence. Qed.

Section Programs.
Context {A : Type}.

Lemma upstreamOnly_await (c : call) (k : response c -> Prog A) :
  (forall r, upstreamOnly (k r)) ->
  upstreamOnly (bind (await c) k).
Proof. intros H. constructor; [reflexivity | exact H]. Qed.

Lemma run_settle (up : upstream) (past : list event) (o : outcome A) :
  run up past (settle o) = ([], o).
Proof. destruct o; reflexivity. Qed.

Variable P : call -> Prop.

Lemma callsSatisfy_tryCatch (p : Prog A) (h : thrown -> Prog A) :
  callsSatisfy P p -> (forall e, callsSatisfy P (h e)) ->
  callsSatisfy P (tryCatch p h).
Proof. induction 1; intros Hh; simpl; auto; constructor; auto. Qed.

Lemma callsSatisfy_await (c : call) (k : response c -> Prog A) :
  P c -> (forall r, callsSatisfy P (k r)) ->
  callsSatisfy P (bind (await c) k).
Proof.
  intros Hc Hk. constructor; [exact Hc|].
  intros [r|e]; simpl; [apply Hk | constructor].
Qed.

Lemma callsSatisfy_settle {B : Type} (o : outcome B) (k : B -> Prog A) :
  (forall b, callsSatisfy P (k b)) ->
  callsSatisfy P (bind (settle o) k).
Proof. intros Hk. destruct o; simpl; [apply Hk | constructor]. Qed.

Lemma run_callsSatisfy (p : Prog A) (up : upstream) :
  callsSatisfy P p ->
  forall past, Forall (fun ev => P (fst ev)) (fst (run up past p)).
Proof.
  induction 1 as [a|e|c k Hc _ IH]; intros past; simpl; try constructor.
  specialize (IH (up past c) (past ++ [(c, rejection (up past c))])%list).
  destruct (run up _ (k (up past c))) as [trace res]. simpl in *.
  constructor; assumption.
Qed.

End Programs.

Ltac upstream_only :=
  repeat (cbv zeta;
          first [ apply uo_Ret
                | apply upstreamOnly_await; intros
                | match goal with
                  | |- upstreamOnly (match ?x with _ => _ end) => destruct x
                  | |- upstreamOnly (if ?b then _ else _) => destruct b
                  end ]).

Ltac calls_satisfy :=
  repeat (cbv zeta;
          first [ apply cs_Ret
                | apply callsSatisfy_tryCatch; intros
                | apply callsSatisfy_settle; intros
                | apply callsSatisfy_await; [simpl; try reflexivity | intros]
                | match goal with
                  | |- callsSatisfy _ (match ?x with _ => _ end) => destruct x
                  | |- callsSatisfy _ (if ?b then _ else _) => destruct b
                  end ]).

Ltac step_run :=
  cbn [catch MonadExc_Prog bind Monad_Prog ret bindProg tryCatch run await
       settle rejection fst snd map].

(** The [catch] block of every handler, as an outcome. *)
Lemma catch_block (label : string) (error : thrown) :
  (errorMessage <- settle (handleEnsError error label) ;;
   ret {| content := [ {| type := "text"; text := errorMessage |} ];
          isError := true |})
  = settle (catchOutcome label error).
Proof.
  unfold catchOutcome. destruct (handleEnsError error label); reflexivity.
Qed.

Section WithRuntime.
Context {rt : Runtime}.

(** C1. The handlers do not always resolve to an envelope: when a client
    call rejects with a value on which the classifier itself throws, a
    value [String(...)] cannot convert such as [Object.create(null)], or
    an [Error] whose message is not a string, the [catch] block throws and
    the handler's promise rejects with what the classifier threw. This
    holds for every tool, [reverseLookup] of an address [isAddress]
    rejects apart, which makes no call. *)
Theorem handlers_reject_unclassifiable
        (past : list event) (t : toolCall) (str : string) (raised : thrown) :
  (snd (run (Samples.failingUpstream (Unconvertible raised)) past (dispatch t))
   = Threw raised
   /\ snd (run (Samples.failingUpstream (OddError str raised)) past (dispatch t))
      = Threw raised)
  \/ (exists address, t = reverse_lookup address /\ isAddress address = false).
Proof.
  destruct t; simpl dispatch;
    try (left; split; reflexivity).
  unfold reverseLookup. destruct (isAddress address) eqn:Haddr.
  - left. split; reflexivity.
  - right. now exists address.
Qed.

(** Apart from [getExpiry] in [getAllRecords], every client call keyed by
    a name is made with the normalized name. *)
Lemma calls_use_normalized_name
      (up : upstream) (past : list event) (t : toolCall) (name : string) :
  toolName t = Some name ->
  Forall (fun ev => fst ev = PublicClient_getExpiry name
                    \/ call_name (fst ev) = Some (normalizeName name))
         (fst (run up past (dispatch t))).
Proof.
  intros Ht.
  apply (run_callsSatisfy
           (fun c => c = PublicClient_getExpiry name
                     \/ call_name c = Some (normalizeName name))).
  destruct t; simpl in Ht; try discriminate; injection Ht as ->;
    simpl dispatch;
    [ unfold resolveName | unfold getTextRecord
    | unfold checkAvailability | unfold getAllRecords | unfold getSubdomains
    | unfold getNameHistory | unfold getRegistrationPrice ];
    calls_satisfy; auto.
Qed.

(** One step of a [try] block: the next awaited call and what follows. *)
Lemma run_tryCatch_await {A B : Type} (up : upstream) (past : list event)
      (c : call) (k : response c -> Prog B) (h : thrown -> Prog B)
      (f : list event * outcome B -> A) :
  f (run up past (tryCatch (bind (await c) k) h))
  = match up past c with
    | Returned r =>
        let '(trace, res) :=
          run up (past ++ [(c, None)]) (tryCatch (k r) h) in
        f ((c, None) :: trace, res)
    | Threw e =>
        let '(trace, res) := run up (past ++ [(c, Some e)]) (h e) in
        f ((c, Some e) :: trace, res)
    end.
Proof.
  simpl. destruct (up past c) as [r|e]; simpl;
    match goal with |- context [run ?u ?p ?q] => destruct (run u p q) end;
    reflexivity.
Qed.

(** Whatever the name and the upstream: once the records and the owner
    have been fetched under the normalized name, the expiry is asked for
    under the name as given. *)
Lemma getAllRecords_calls (up : upstream) (past : list event) (name : string)
      (recs : RecordsResponse) (owner : option Ownership) :
  let getRecords := JustaName_subnames_getRecords (normalizeName name) in
  let getOwner := PublicClient_getOwner (normalizeName name) in
  up past getRecords = Returned recs ->
  up (past ++ [(getRecords, None)])%list getOwner = Returned owner ->
  map fst (fst (run up past (getAllRecords name)))
  = [getRecords; getOwner; PublicClient_getExpiry name].
Proof.
  intros getRecords getOwner H1 H2. unfold getAllRecords. cbv zeta.
  unfold catch, MonadExc_Prog.
  rewrite (run_tryCatch_await up past getRecords _ _ (fun x => map fst (fst x))).
  rewrite H1.
  match goal with
  | |- (let '(_, _) := ?r in _) = _ =>
      change r with (id r);
      rewrite (surjective_pairing (id r)); unfold id
  end.
  cbn [map fst].
  f_equal.
  rewrite (run_tryCatch_await up _ getOwner _ _ (fun x => map fst (fst x))).
  fold getRecords. rewrite H2.
  match goal with
  | |- (let '(_, _) := ?r in _) = _ =>
      change r with (id r);
      rewrite (surjective_pairing (id r)); unfold id
  end.
  cbn [map fst].
  f_equal.
  rewrite (run_tryCatch_await up _ (PublicClient_getExpiry name) _ _
             (fun x => map fst (fst x))).
  destruct (up _ (PublicClient_getExpiry name)) as [[expiry|]|e];
    try reflexivity.
  rewrite catch_block, run_settle. reflexivity.
Qed.

Lemma normalizeName_changes (name : string) :
  endsWith name ".eth" = false ->
  normalizeName name = name ++ ".eth" /\ normalizeName name <> name.
Proof.
  intros H. unfold normalizeName. rewrite H. split; [reflexivity|].
  intros E. apply (f_equal String.length) in E.
  rewrite JsFacts.length_append in E. simpl in E. lia.
Qed.

(** C6. [getAllRecords] asks for the expiry with the name as the caller
    gave it: for "vitalik" the records and the owner are queried under
    "vitalik.eth", the expiry under "vitalik". *)
Theorem getAllRecords_expiry_raw_name (past : list event) :
  map fst (fst (run Samples.nothingFound past (getAllRecords "vitalik")))
  = [ JustaName_subnames_getRecords "vitalik.eth";
      PublicClient_getOwner "vitalik.eth";
      PublicClient_getExpiry "vitalik" ]
  /\ endsWith "vitalik" ".eth" = false
  /\ normalizeName "vitalik" = "vitalik.eth".
Proof. repeat split. Qed.

(** C8. [resolveName] of "vitalik" makes one client call, the address
    record of "vitalik.eth" for the coin ETH; when that finds no record the
    envelope is a success saying the name could not be resolved, and when
    it finds the value 0xabc the envelope is a success naming it. *)
Theorem resolveName_vitalik (up : upstream) (past : list event) :
  let query := PublicClient_getAddressRecord "vitalik.eth" "ETH" in
  map fst (fst (run up past (resolveName "vitalik"))) = [query]
  /\ (up past query = Returned None ->
      snd (run up past (resolveName "vitalik"))
      = Returned {| content := [ {| type := "text";
                                    text := "Could not resolve vitalik.eth to an address." |} ];
                    isError := false |})
  /\ (forall record : AddressRecord,
         up past query = Returned (Some record) ->
         addr_value record = "0xabc" ->
         snd (run up past (resolveName "vitalik"))
         = Returned {| content := [ {| type := "text";
                                       text := "The address for vitalik.eth is 0xabc" |} ];
                       isError := false |}).
Proof.
  intros query. unfold resolveName.
  change (normalizeName "vitalik") with "vitalik.eth".
  cbv zeta. step_run. fold query.
  destruct (up past query) as [[record|]|e]; step_run;
    try rewrite catch_block, run_settle; step_run;
    (split; [reflexivity|]); split; try discriminate; try reflexivity.
  intros record' E V. injection E as <-. now rewrite V.
Qed.

Lemma resolveName_vitalik_witness :
  snd (run (Samples.addressUpstream None) [] (resolveName "vitalik"))
  = Returned (successEnvelope "Could not resolve vitalik.eth to an address.")
  /\ snd (run (Samples.addressUpstream (Some {| addr_value := "0xabc" |})) []
              (resolveName "vitalik"))
     = Returned (successEnvelope "The address for vitalik.eth is 0xabc").
Proof.
  split.
  - apply (proj1 (proj2 (resolveName_vitalik (Samples.addressUpstream None) []))).
    reflexivity.
  - apply (proj2 (proj2 (resolveName_vitalik
                           (Samples.addressUpstream (Some {| addr_value := "0xabc" |}))
                           [])) {| addr_value := "0xabc" |});
      reflexivity.
Defined.

(** C9. For an address that [isAddress] rejects, [reverseLookup] resolves
    to the error envelope "Invalid Ethereum address: ..." and makes no
    client call; any call it makes is [getName], for an address that
    [isAddress] accepts. *)
Theorem reverseLookup_invalid_address
        (up : upstream) (past : list event) (address : string) :
  (isAddress address = false ->
   run up past (reverseLookup address)
   = ([], Returned {| content := [ {| type := "text";
                                      text := "Invalid Ethereum address: " ++ address |} ];
                      isError := true |}))
  /\ (forall ev : event,
         In ev (fst (run up past (reverseLookup address))) ->
         isAddress address = true /\ fst ev = PublicClient_getName address).
Proof.
  unfold reverseLookup. destruct (isAddress address); cbn [negb]; step_run.
  - split; [discriminate|].
    destruct (up past (PublicClient_getName address)) as [[result|]|e]; step_run;
      try rewrite catch_block, run_settle; step_run;
      intros ev [<-|[]]; auto.
  - split; [reflexivity | intros ev []].
Qed.

End WithRuntime.

Lemma reverseLookup_invalid_address_witness :
  run (Samples.failingUpstream (NonError "unreachable")) []
      (reverseLookup (rt := Samples.sampleRuntime) "not-an-address")
  = ([], Returned (errorEnvelope "Invalid Ethereum address: not-an-address")).
Proof.
  apply (proj1 (reverseLookup_invalid_address
                  (rt := Samples.sampleRuntime)
                  (Samples.failingUpstream (NonError "unreachable")) []
                  "not-an-address")).
  reflexivity.
Defined.

(** A client call that rejects with [Object.create(null)] makes
    [resolveName] reject with the [TypeError] of the failed conversion. *)
Example resolveName_object_without_prototype :
  run (Samples.failingUpstream Samples.objectWithoutPrototype) []
      (resolveName "vitalik")
  = ([ (PublicClient_getAddressRecord "vitalik.eth" "ETH",
        Some Samples.objectWithoutPrototype) ],
     Threw conversionTypeError).
Proof. reflexivity. Qed.

(** A rejected transport surfaces as a network-error envelope. *)
Example resolveName_fetch_failed :
  run (Samples.failingUpstream (ErrorInstance "Error" "fetch failed")) []
      (resolveName "vitalik")
  = ([ (PublicClient_getAddressRecord "vitalik.eth" "ETH",
        Some (ErrorInstance "Error" "fetch failed")) ],
     Returned (errorEnvelope (template NetworkError "name resolution" "fetch failed"))).
Proof. reflexivity. Qed.

End Handlers.

(* ===================================================================== *)
(** ** The provider list, the transports and the first client *)
(* ===================================================================== *)

Module Transport.
Import Js JsFacts Clients.

Lemma getProviderUrls_cons (envProvider : option string) :
  exists first rest, getProviderUrls envProvider = first :: rest.
Proof.
  destruct envProvider as [env|]; unfold getProviderUrls.
  - destruct (truthy env && includes env ",").
    + destruct (split_cons "," env) as (piece & rest & ->).
      now exists (trim piece), (map (fun url => trim url) rest).
    + destruct (truthy env); eexists; eexists; reflexivity.
  - eexists; eexists; reflexivity.
Qed.

(** X1. A single override (non-empty, no comma) yields four entries when it
    is one of the built-in defaults and five when it is not; an empty
    override behaves like an unset one. *)
Theorem getProviderUrls_single_length (env : string) :
  (env <> "" -> includes env "," = false ->
   (In env DEFAULT_PROVIDERS -> List.length (getProviderUrls (Some env)) = 4)
   /\ (~ In env DEFAULT_PROVIDERS -> List.length (getProviderUrls (Some env)) = 5))
  /\ getProviderUrls (Some "") = getProviderUrls None.
Proof.
  split; [|reflexivity].
  intros Hne Hc. unfold getProviderUrls.
  rewrite Hc, andb_false_r.
  assert (T : truthy env = true).
  { unfold truthy. now destruct (String.eqb_spec env ""). }
  rewrite T. unfold DEFAULT_PROVIDERS. cbn [filter In].
  repeat match goal with
         | |- context [String.eqb ?a env] =>
             destruct (String.eqb_spec a env); subst
         end;
    cbn [negb List.length]; split; intros H; try reflexivity;
    try (exfalso; apply H; tauto);
    try (exfalso; intuition congruence).
Qed.

Lemma getProviderUrls_single_length_witness :
  List.length (getProviderUrls (Some "https://rpc.example.org")) = 5
  /\ List.length (getProviderUrls (Some "https://ethereum.publicnode.com")) = 4.
Proof.
  split.
  - apply (proj1 (getProviderUrls_single_length "https://rpc.example.org"));
      [discriminate | reflexivity |].
    simpl. intuition discriminate.
  - apply (proj1 (getProviderUrls_single_length "https://ethereum.publicnode.com"));
      [discriminate | reflexivity |].
    simpl. tauto.
Defined.

(** X2. [configureTransport] builds one transport per provider URL, in the
    order of the provider list and never none, each with a timeout of
    10000 ms, 3 retries 1000 ms apart and the JSON content type; its first
    endpoint is the one the first JustaName client is bound to. *)
Theorem configureTransport_one_per_provider
        (envProvider : option string) (h : Heap) :
  map http_url (configureTransport envProvider) = getProviderUrls envProvider
  /\ configureTransport envProvider <> []
  /\ Forall (fun t => http_timeout t = 10000%Z
                      /\ http_retryCount t = 3%Z
                      /\ http_retryDelay t = 1000%Z
                      /\ http_headers t = [ ("Content-Type", "application/json") ])
            (configureTransport envProvider)
  /\ option_map http_url (hd_error (configureTransport envProvider))
     = providerUrl (client (fst (createJustaNameClient envProvider h))).
Proof.
  unfold configureTransport, createJustaNameClient. cbv zeta.
  destruct (getProviderUrls_cons envProvider) as (first & rest & ->).
  repeat split.
  - rewrite map_map. simpl. f_equal. apply map_id.
  - discriminate.
  - apply Forall_map, Forall_forall. intros url _. simpl. auto.
Qed.

(** X3. The client [createJustaNameClient] starts with is always bound to a
    defined endpoint, the first of the provider list: the first built-in
    default without an override, the override itself when it is a single
    URL, and the trimmed first piece of a comma-separated override. The
    closure variable and the returned [client] property start out as the
    same client, for chain 1. *)
Theorem createJustaNameClient_first_provider
        (envProvider : option string) (h : Heap) :
  let f := fst (createJustaNameClient envProvider h) in
  held f = client f
  /\ chainId (client f) = 1%Z
  /\ providerUrls f = getProviderUrls envProvider
  /\ (exists u, providerUrl (client f) = Some u
                /\ hd_error (getProviderUrls envProvider) = Some u)
  /\ (envProvider = None -> providerUrl (client f) = Some "https://eth.drpc.org")
  /\ (forall env, envProvider = Some env -> env <> "" ->
                  providerUrl (client f)
                  = Some (if includes env ","
                          then trim (hd EmptyString (split "," env))
                          else env)).
Proof.
  unfold createJustaNameClient. cbv zeta. simpl.
  repeat split.
  - destruct (getProviderUrls_cons envProvider) as (first & rest & ->).
    exists first. split; reflexivity.
  - intros ->. reflexivity.
  - intros env -> Hne. unfold getProviderUrls.
    assert (T : truthy env = true).
    { unfold truthy. now destruct (String.eqb_spec env ""). }
    rewrite T. simpl. destruct (includes env ","); [|reflexivity].
    destruct (split_cons "," env) as (piece & rest & ->). reflexivity.
Qed.

Lemma createJustaNameClient_first_provider_witness :
  providerUrl (client (fst (createJustaNameClient
                              (Some " https://a.example ,https://b.example")
                              (mkHeap 0))))
  = Some "https://a.example".
Proof.
  rewrite (proj2 (proj2 (proj2 (proj2 (proj2
             (createJustaNameClient_first_provider
                (Some " https://a.example ,https://b.example") (mkHeap 0))))))
             " https://a.example ,https://b.example" eq_refl);
    [reflexivity | discriminate].
Defined.

End Transport.

(* ===================================================================== *)
(** ** Sequences of rotations *)
(* ===================================================================== *)

Module RotationSequences.
Import Js Clients.

Lemma retry_frame (i : option Z) (f : Factory) (h : Heap) :
  let '(_, f', h') := retry i f h in
  providerUrls f' = providerUrls f
  /\ client f' = client f
  /\ nextId h <= nextId h'.
Proof.
  unfold retry. cbv zeta. destruct (_ >=? _)%Z; simpl; auto.
Qed.

Lemma retryEach_frame (indices : list (option Z)) :
  forall (f : Factory) (h : Heap),
    providerUrls (fst (retryEach indices f h)) = providerUrls f
    /\ client (fst (retryEach indices f h)) = client f
    /\ nextId h <= nextId (snd (retryEach indices f h)).
Proof.
  induction indices as [|i rest IH]; intros f h; simpl; [auto|].
  pose proof (retry_frame i f h) as F.
  destruct (retry i f h) as [[o f'] h']. destruct F as (U & C & N).
  destruct (IH f' h') as (U' & C' & N').
  rewrite U', C', U, C. repeat split. lia.
Qed.

(** X4. Whatever sequence of [retry] calls is made, and whether they
    resolve or reject, the [client] property of the object the factory
    returned is never replaced: it stays the client bound to the first
    provider URL, and the provider list stays as it was. *)
Theorem retryEach_keeps_exported_client
        (envProvider : option string) (h : Heap) (indices : list (option Z)) :
  let created := createJustaNameClient envProvider h in
  let f' := fst (retryEach indices (fst created) (snd created)) in
  client f' = client (fst created)
  /\ providerUrl (client f') = hd_error (getProviderUrls envProvider)
  /\ providerUrls f' = getProviderUrls envProvider.
Proof.
  intros created f'. subst f'.
  destruct (retryEach_frame indices (fst created) (snd created)) as (U & C & _).
  rewrite U, C. subst created. unfold createJustaNameClient. simpl.
  repeat split.
Qed.

Lemma skipn_nth_error {A : Type} (l : list A) (k : nat) (x : A) :
  nth_error l k = Some x -> skipn k l = x :: skipn (S k) l.
Proof.
  revert k. induction l as [|a l IH]; intros [|k] H; simpl in *;
    try discriminate.
  - now injection H as ->.
  - now apply IH.
Qed.

Lemma last_cons {A : Type} (l : list A) (a d : A) :
  last (a :: l) d = last l a.
Proof.
  revert a d. induction l as [|b l IH]; intros a d; [reflexivity|].
  change (last (a :: b :: l) d) with (last (b :: l) d).
  now rewrite !IH.
Qed.

Lemma rotateFrom_rest (fuel : nat) :
  forall (i : nat) (f : Factory) (h : Heap),
    List.length (providerUrls f) <= i + fuel ->
    let '(bound, f', h') := rotateFrom fuel (Z.of_nat i) f h in
    bound = map Some (skipn (S i) (providerUrls f))
    /\ providerUrls f' = providerUrls f
    /\ client f' = client f
    /\ nextId h' = nextId h + List.length bound
    /\ providerUrl (held f') = last bound (providerUrl (held f)).
Proof.
  induction fuel as [|fuel IH]; intros i f h Hlen.
  - cbn [rotateFrom]. rewrite skipn_all2 by lia. simpl. auto.
  - cbn [rotateFrom]. unfold retry.
    destruct (Z.geb_spec (Z.of_nat i) (Z.of_nat (List.length (providerUrls f)) - 1))
      as [Hge|Hlt].
    + rewrite skipn_all2 by lia. simpl. auto.
    + cbn [JustaName_init].
      assert (Hi : S i < List.length (providerUrls f)) by lia.
      destruct (nth_error (providerUrls f) (S i)) as [x|] eqn:Hx;
        [|apply nth_error_None in Hx; lia].
      assert (Hidx : index (providerUrls f) (Z.of_nat i + 1) = Some x).
      { unfold index. destruct (Z.ltb_spec (Z.of_nat i + 1) 0); [lia|].
        replace (Z.to_nat (Z.of_nat i + 1)) with (S i) by lia. exact Hx. }
      rewrite Hidx.
      replace (Z.of_nat i + 1)%Z with (Z.of_nat (S i)) by lia.
      specialize (IH (S i)
                     (mkFactory (providerUrls f)
                                (mkClient (nextId h) 1 (Some x)) (client f))
                     (mkHeap (S (nextId h)))).
      cbn [providerUrls client held nextId providerUrl] in IH.
      specialize (IH ltac:(lia)).
      destruct (rotateFrom fuel (Z.of_nat (S i)) _ _) as [[bound f''] h''].
      destruct IH as (B & U & C & N & L).
      cbn [providerUrl]. rewrite (skipn_nth_error _ _ _ Hx). subst bound.
      repeat split; auto.
      * simpl. rewrite N. simpl. lia.
      * rewrite last_cons. exact L.
Qed.

(** X5. Rotating from index 0 until a rotation rejects visits every
    provider after the first exactly once, in list order: the clients
    returned are bound to the tail of the provider list, one client is
    allocated per rotation, the held client ends up bound to the last
    provider, and the returned [client] property is not touched. *)
Theorem rotateFrom_visits_rest (fuel : nat) (f : Factory) (h : Heap) :
  List.length (providerUrls f) <= fuel ->
  let '(bound, f', h') := rotateFrom fuel 0 f h in
  bound = map Some (tl (providerUrls f))
  /\ providerUrls f' = providerUrls f
  /\ client f' = client f
  /\ nextId h' = nextId h + List.length bound
  /\ providerUrl (held f') = last bound (providerUrl (held f)).
Proof.
  intros Hlen. pose proof (rotateFrom_rest fuel 0 f h Hlen) as R.
  change (Z.of_nat 0) with 0%Z in R.
  destruct (rotateFrom fuel 0 f h) as [[bound f'] h'].
  destruct R as (B & R). split; [|exact R].
  rewrite B. now destruct (providerUrls f).
Qed.

Lemma rotateFrom_visits_rest_witness :
  let created := createJustaNameClient None (mkHeap 0) in
  fst (fst (rotateFrom 4 0 (fst created) (snd created)))
  = [ Some "https://eth.llamarpc.com";
      Some "https://ethereum.publicnode.com";
      Some "https://rpc.ankr.com/eth" ].
Proof.
  intros created.
  pose proof (rotateFrom_visits_rest 4 (fst created) (snd created)) as R.
  destruct (rotateFrom 4 0 (fst created) (snd created)) as [[bound f'] h'].
  destruct R as (B & _); [simpl; lia|].
  simpl. rewrite B. reflexivity.
Defined.

End RotationSequences.

(* ===================================================================== *)
(** ** Name normalization, the generic wrapper and the classifier's text *)
(* ===================================================================== *)

Module ErrorHandling.
Import Js JsFacts Utils Spec.

(** X6. A normalized name always ends in ".eth", is at most four
    characters longer than the input, and normalizing is idempotent. *)
Theorem normalizeName_idempotent (name : string) :
  endsWith (normalizeName name) ".eth" = true
  /\ normalizeName (normalizeName name) = normalizeName name
  /\ String.length (normalizeName name) <= String.length name + 4.
Proof.
  assert (E : endsWith (normalizeName name) ".eth" = true).
  { unfold normalizeName. destruct (endsWith name ".eth") eqn:E; [exact E|].
    apply endsWith_spec. now exists name. }
  split; [exact E|]. split.
  - unfold normalizeName at 1. now rewrite E.
  - unfold normalizeName. destruct (endsWith name ".eth").
    + lia.
    + rewrite length_append. simpl. lia.
Qed.

(** X7. [withErrorHandling] never rejects: it makes exactly the client
    calls of [fn], resolves to the value of [fn] when [fn] resolves and to
    [defaultValue] when [fn] rejects, whatever was thrown. *)
Theorem withErrorHandling_never_rejects {T : Type}
        (up : upstream) (operation : string) (fn : Prog T) (defaultValue : T) :
  forall past : list event,
    run up past (withErrorHandling operation fn defaultValue)
    = (fst (run up past fn),
       Returned (match snd (run up past fn) with
                 | Returned value => value
                 | Threw _ => defaultValue
                 end)).
Proof.
  unfold withErrorHandling. simpl.
  induction fn as [a|e|c k IH]; intros past; simpl; try reflexivity.
  rewrite IH.
  destruct (run up _ (k (up past c))) as [trace res]. reflexivity.
Qed.



End ErrorHandling.

(* ===================================================================== *)
(** ** What every handler's run looks like *)
(* ===================================================================== *)

Module HandlerTraces.
Import Js Utils Server Spec Handlers.

Section Shapes.
Context {A : Type}.

Lemma resolvesIn_await (Q : A -> Prop) (c : call) (k : response c -> Prog A) :
  (forall r, resolvesIn Q (k r)) -> resolvesIn Q (bind (await c) k).
Proof. intros H [r|e]; simpl; auto. Qed.

Lemma atMost_await (n : nat) (c : call) (k : response c -> Prog A) :
  (forall r, atMost n (k r)) -> atMost (S n) (bind (await c) k).
Proof. intros H [r|e]; [apply H | exact I]. Qed.

Lemma atMost_settle (n : nat) (o : outcome A) : atMost n (settle o).
Proof. destruct o; exact I. Qed.

Lemma atMost_tryCatch (p : Prog A) (h : thrown -> Prog A) :
  (forall e n, atMost n (h e)) ->
  forall n, atMost n p -> atMost n (tryCatch p h).
Proof.
  intros Hh. induction p as [a|e|c k IH]; intros n H; simpl in *; auto.
  destruct n; [contradiction | auto].
Qed.

Lemma atMost_run (p : Prog A) (up : upstream) :
  forall n past, atMost n p -> List.length (fst (run up past p)) <= n.
Proof.
  induction p as [a|e|c k IH]; intros n past H; simpl in *; try lia.
  destruct n; [contradiction|].
  specialize (IH (up past c) n (past ++ [(c, rejection (up past c))])%list
                 (H (up past c))).
  destruct (run up _ (k (up past c))) as [trace res]. simpl in *. lia.
Qed.

(** A [try] block that rejects only where a client call rejects, under a
    [catch] block that makes no call: either no call rejected and the
    block's own value came out, or the last call made rejected and the
    run settled as the [catch] block does. *)
Lemma run_tryCatch_shape (p : Prog A) (h : thrown -> Prog A)
      (o : thrown -> outcome A) (up : upstream) (Q : A -> Prop) :
  (forall e, h e = settle (o e)) ->
  upstreamOnly p -> resolvesIn Q p ->
  forall past,
  exists trace res,
    run up past (tryCatch p h) = (trace, res)
    /\ ((allResolved trace /\ exists a, res = Returned a /\ Q a)
        \/ exists init c e,
             trace = (init ++ [(c, Some e)])%list
             /\ allResolved init /\ res = o e).
Proof.
  intros Hh U. induction U as [a|c k Hthrow _ IH]; intros HQ past.
  - exists [], (Returned a). split; [reflexivity|]. left.
    split; [constructor | now exists a].
  - simpl in HQ. simpl. destruct (up past c) as [r|e] eqn:E.
    + destruct (IH r (HQ (Returned r)) (past ++ [(c, None)])%list)
        as (trace & res & R & S).
      simpl. rewrite R. exists ((c, None) :: trace), res.
      split; [reflexivity|].
      destruct S as [[AR Qa]|(init & c' & e' & -> & AI & ->)].
      * left. split; [constructor; auto | exact Qa].
      * right. exists ((c, None) :: init), c', e'.
        repeat split. constructor; auto.
    + rewrite Hthrow. simpl. rewrite Hh, run_settle.
      exists [(c, Some e)], (o e).
      split; [reflexivity|]. right. exists [], c, e.
      repeat split. constructor.
Qed.

End Shapes.

Ltac resolves_in :=
  repeat (cbv zeta;
          first [ apply resolvesIn_await; intros
                | match goal with
                  | |- resolvesIn _ (match ?x with _ => _ end) => destruct x
                  | |- resolvesIn _ (if ?b then _ else _) => destruct b
                  end
                | let H := fresh in
                  intro H; simpl in H; try discriminate H ]).

Ltac at_most :=
  repeat (cbv zeta;
          first [ apply atMost_await; intros
                | match goal with
                  | |- atMost _ (match ?x with _ => _ end) => destruct x
                  | |- atMost _ (if ?b then _ else _) => destruct b
                  end
                | exact I ]).

Ltac unfold_handler :=
  unfold resolveName, reverseLookup, getTextRecord, checkAvailability,
    getAllRecords, getSubdomains, getNameHistory, getRegistrationPrice.

Lemma allResolved_no_rejection (trace : list event) (c : call) (e : thrown) :
  allResolved trace -> ~ In (c, Some e) trace.
Proof.
  intros AR Hin. unfold allResolved in AR.
  rewrite Forall_forall in AR. specialize (AR _ Hin). discriminate AR.
Qed.


Section WithRuntime.
Context {rt : Runtime}.

Lemma dispatch_shape (up : upstream) (past : list event) (t : toolCall) :
  exists trace res,
    run up past (dispatch t) = (trace, res)
    /\ ((allResolved trace
         /\ exists envelope, res = Returned envelope /\ ownError t envelope)
        \/ exists init c e,
             trace = (init ++ [(c, Some e)])%list
             /\ allResolved init
             /\ res = catchOutcome (operationLabel t) e).
Proof.
  destruct t; simpl dispatch; simpl operationLabel; unfold_handler; cbv zeta;
    try match goal with
        | |- context [isAddress ?a] => destruct (isAddress a) eqn:Haddr
        end;
    cbn [negb];
    match goal with
    | |- context [handleEnsError _ ?label] =>
        apply (run_tryCatch_shape _ _ (catchOutcome label))
    end;
    try solve [intros e; apply catch_block];
    try solve [upstream_only];
    unfold ownError; resolves_in.
  exists address. split; [reflexivity | exact Haddr].
Qed.

(** X9. In every run of every tool at most one client call rejects, and
    it is the last call made: a handler never calls a client again after a
    rejection. *)
Theorem handlers_stop_at_rejection
        (up : upstream) (past : list event) (t : toolCall) :
  allResolved (fst (run up past (dispatch t)))
  \/ exists init c e,
       fst (run up past (dispatch t)) = (init ++ [(c, Some e)])%list
       /\ allResolved init.
Proof.
  destruct (dispatch_shape up past t) as (trace & res & R & S).
  rewrite R. simpl.
  destruct S as [[AR _]|(init & c & e & -> & AI & _)]; [left; exact AR|].
  right. now exists init, c, e.
Qed.

(** X10. Whenever a tool resolves to an envelope, the envelope is flagged
    as an error exactly when a client call rejected or [reverseLookup] was
    given an address [isAddress] rejects; a lookup that finds nothing is a
    success. *)
Theorem handlers_error_iff
        (up : upstream) (past : list event) (t : toolCall)
        (envelope : ServerResponse) :
  snd (run up past (dispatch t)) = Returned envelope ->
  (isError envelope = true
   <-> (exists c e, In (c, Some e) (fst (run up past (dispatch t))))
       \/ (exists address,
              t = reverse_lookup address /\ isAddress address = false)).
Proof.
  destruct (dispatch_shape up past t) as (trace & res & R & S).
  rewrite R. simpl. intros ->. split.
  - intros He.
    destruct S as [(_ & envelope' & E & Own)|(init & c & e & -> & _ & _)].
    + injection E as <-. right. exact (Own He).
    + left. exists c, e. apply in_or_app. right. now left.
  - intros [(c & e & Hin)|(address & -> & Haddr)].
    + destruct S as [[AR _]|(init & c' & e' & _ & _ & E)].
      * now apply allResolved_no_rejection in Hin.
      * unfold catchOutcome in E.
        destruct (handleEnsError e' _); [|discriminate E].
        now injection E as ->.
    + revert R. simpl dispatch. unfold reverseLookup. rewrite Haddr.
      cbn [negb]. step_run. intros R. now injection R as _ <-.
Qed.

(** X11. One invocation makes at most three client calls: at most two for
    [checkAvailability], three for [getAllRecords] and one for every other
    tool. *)
Theorem handlers_call_budget
        (up : upstream) (past : list event) (t : toolCall) :
  List.length (fst (run up past (dispatch t))) <= callBudget t
  /\ callBudget t <= 3.
Proof.
  split; [|destruct t; simpl; lia].
  apply atMost_run.
  destruct t; simpl dispatch; simpl callBudget; unfold_handler; cbv zeta;
    unfold catch, MonadExc_Prog;
    apply atMost_tryCatch;
    try solve [intros e n; rewrite catch_block; apply atMost_settle];
    at_most.
Qed.

(** X12. Every client call a tool makes for a name is keyed by the
    normalized name, with one exception that only [getAllRecords] has and
    always has: once its records and the owner have been fetched (under
    the normalized name), it asks for the expiry under the name as the
    caller gave it. *)
Theorem calls_normalized_except_expiry
        (up : upstream) (past : list event) (t : toolCall) (name : string) :
  toolName t = Some name ->
  Forall (fun ev => call_name (fst ev) = Some (normalizeName name)
                    \/ (t = get_all_records name
                        /\ fst ev = PublicClient_getExpiry name))
         (fst (run up past (dispatch t)))
  /\ (forall (recs : RecordsResponse) (owner : option Ownership),
         t = get_all_records name ->
         up past (JustaName_subnames_getRecords (normalizeName name))
         = Returned recs ->
         up (past ++ [(JustaName_subnames_getRecords (normalizeName name), None)])%list
            (PublicClient_getOwner (normalizeName name))
         = Returned owner ->
         map fst (fst (run up past (dispatch t)))
         = [ JustaName_subnames_getRecords (normalizeName name);
             PublicClient_getOwner (normalizeName name);
             PublicClient_getExpiry name ]).
Proof.
  intros Ht. split.
  - apply (run_callsSatisfy
             (fun c => call_name c = Some (normalizeName name)
                       \/ (t = get_all_records name
                           /\ c = PublicClient_getExpiry name))).
    destruct t; simpl in Ht; try discriminate; injection Ht as ->;
      simpl dispatch; unfold_handler; calls_satisfy; auto.
  - intros recs owner -> H1 H2. simpl dispatch.
    now apply (getAllRecords_calls up past name recs owner).
Qed.


End WithRuntime.

Lemma handlers_error_iff_witness :
  isError (errorEnvelope
             "Network error while accessing Ethereum providers. Please check your internet connection or try again later. Technical details: fetch failed")
  = true
  <-> (exists c e,
          In (c, Some e)
             (fst (run (Samples.failingUpstream (ErrorInstance "Error" "fetch failed"))
                       [] (dispatch (rt := Samples.sampleRuntime)
                                    (resolve_name "vitalik")))))
      \/ (exists address,
             resolve_name "vitalik" = reverse_lookup address
             /\ isAddress (Runtime := Samples.sampleRuntime) address = false).
Proof.
  apply (handlers_error_iff (rt := Samples.sampleRuntime)
           (Samples.failingUpstream (ErrorInstance "Error" "fetch failed")) []
           (resolve_name "vitalik")).
  reflexivity.
Defined.

Lemma calls_normalized_except_expiry_witness :
  map fst (fst (run Samples.nothingFound []
                    (dispatch (rt := Samples.sampleRuntime)
                              (get_all_records "vitalik"))))
  = [ JustaName_subnames_getRecords "vitalik.eth";
      PublicClient_getOwner "vitalik.eth";
      PublicClient_getExpiry "vitalik" ].
Proof.
  apply (proj2 (calls_normalized_except_expiry
                  (rt := Samples.sampleRuntime)
                  Samples.nothingFound [] (get_all_records "vitalik") "vitalik"
                  eq_refl)
           {| records := {| resolverAddress := "0x0"; texts := None;
                            coins := None; contentHash := None |} |}
           None eq_refl eq_refl eq_refl).
Defined.

End HandlerTraces.

(* ===================================================================== *)
(** ** What the single handlers answer *)
(* ===================================================================== *)

Module HandlerResults.
Import Js JsFacts Utils Server Spec Handlers.

Section WithRuntime.
Context {rt : Runtime}.

(** X13. [checkAvailability] asks for the owner only when the name is not
    available: for an available name it makes the one call and says so;
    otherwise it makes a second call, for the owner under the same
    normalized name, and reports the name as registered, naming the owner
    when one was found. *)
Theorem checkAvailability_answers
        (up : upstream) (past : list event) (name : string) :
  let normalizedName := normalizeName name in
  let getAvailable := PublicClient_getAvailable normalizedName in
  let getOwner := PublicClient_getOwner normalizedName in
  (up past getAvailable = Returned true ->
   run up past (checkAvailability name)
   = ([(getAvailable, None)],
      Returned (successEnvelope
                  ("The name " ++ normalizedName ++ " is available for registration."))))
  /\ (forall owner : option Ownership,
         up past getAvailable = Returned false ->
         up (past ++ [(getAvailable, None)])%list getOwner = Returned owner ->
         run up past (checkAvailability name)
         = ([(getAvailable, None); (getOwner, None)],
            Returned (successEnvelope
                        ("The name " ++ normalizedName ++ " is already registered. "
                           ++ match owner with
                              | Some owner => "Current owner: " ++ own_owner owner
                              | None => ""
                              end)))).
Proof.
  unfold checkAvailability. generalize (normalizeName name) as N. intros N.
  cbv zeta. split.
  - intros E. step_run. rewrite E. reflexivity.
  - intros owner E1 E2. step_run. rewrite E1. step_run. rewrite E2. reflexivity.
Qed.

(** X14. [getTextRecord] makes one call, for the key under the normalized
    name, and treats an empty record like a missing one: both are reported
    as "No '<key>' record found"; any other value is reported as the
    record. *)
Theorem getTextRecord_answers
        (up : upstream) (past : list event) (name key : string) :
  let normalizedName := normalizeName name in
  let getText := PublicClient_getTextRecord normalizedName key in
  map fst (fst (run up past (getTextRecord name key))) = [getText]
  /\ (up past getText = Returned None \/ up past getText = Returned (Some "") ->
      snd (run up past (getTextRecord name key))
      = Returned (successEnvelope
                    ("No '" ++ key ++ "' record found for " ++ normalizedName)))
  /\ (forall value : string,
         value <> "" ->
         up past getText = Returned (Some value) ->
         snd (run up past (getTextRecord name key))
         = Returned (successEnvelope
                       ("The '" ++ key ++ "' record for " ++ normalizedName
                          ++ " is: " ++ value))).
Proof.
  unfold getTextRecord. generalize (normalizeName name) as N. intros N.
  cbv zeta. step_run. repeat split.
  - destruct (up past (PublicClient_getTextRecord N key)) as [[v|]|e];
      step_run; cbn [truthy_opt negb];
      try (rewrite catch_block, run_settle); try reflexivity.
    destruct (truthy v); reflexivity.
  - intros [E|E]; rewrite E; reflexivity.
  - intros value Hne E. rewrite E. step_run. cbn [truthy_opt].
    assert (T : truthy value = true).
    { unfold truthy. now destruct (String.eqb_spec value ""). }
    rewrite T. reflexivity.
Qed.

(** X15. For an address [isAddress] accepts, [reverseLookup] makes one
    call, [getName] for the address as given; no name found is a success
    saying so, and a name found is reported with a note when its forward
    resolution does not match the address. *)
Theorem reverseLookup_answers
        (up : upstream) (past : list event) (address : string) :
  isAddress address = true ->
  let getName := PublicClient_getName address in
  map fst (fst (run up past (reverseLookup address))) = [getName]
  /\ (up past getName = Returned None ->
      snd (run up past (reverseLookup address))
      = Returned (successEnvelope ("No ENS name found for address " ++ address)))
  /\ (forall result : NameResult,
         up past getName = Returned (Some result) ->
         snd (run up past (reverseLookup address))
         = Returned (successEnvelope
                       ("The ENS name for " ++ address ++ " is " ++ rev_name result
                          ++ (if rev_match result then ""
                              else " (Note: forward resolution does not match this address)")))).
Proof.
  intros Haddr getName. unfold reverseLookup. rewrite Haddr.
  subst getName. cbn [negb]. step_run. repeat split.
  - destruct (up past (PublicClient_getName address)) as [[r|]|e]; step_run;
      try (rewrite catch_block, run_settle); reflexivity.
  - intros E. rewrite E. reflexivity.
  - intros result E. rewrite E. step_run. destruct (rev_match result); reflexivity.
Qed.

(** X16. When nothing is found, [getSubdomains] and [getNameHistory]
    answer with a success that names the input as the caller wrote it,
    although the query was made under the normalized name; an empty list
    of subdomains counts as nothing found. *)
Theorem not_found_names_input
        (up : upstream) (past : list event) (name : string) :
  let getSubnames := PublicClient_getSubnames (normalizeName name) in
  let getHistory := PublicClient_getNameHistory (normalizeName name) in
  (up past getSubnames = Returned None \/ up past getSubnames = Returned (Some []) ->
   run up past (getSubdomains name)
   = ([(getSubnames, None)],
      Returned (successEnvelope ("No subdomains found for " ++ name))))
  /\ (up past getHistory = Returned None ->
      run up past (getNameHistory name)
      = ([(getHistory, None)],
         Returned (successEnvelope ("No history found for " ++ name)))).
Proof.
  unfold getSubdomains, getNameHistory.
  generalize (normalizeName name) as N. intros N. cbv zeta. split.
  - intros [E|E]; step_run; rewrite E; reflexivity.
  - intros E. step_run. rewrite E. reflexivity.
Qed.

Lemma fold_left_lines {X : Type} (step : string -> X -> string)
      (line : X -> string) :
  (forall output x, step output x = output ++ line x) ->
  forall (l : list X) (output : string),
    fold_left step l output = output ++ lines (map line l).
Proof.
  intros Hstep. induction l as [|x l IH]; intros output; simpl.
  - clear. induction output; simpl; congruence.
  - now rewrite IH, Hstep, append_assoc.
Qed.

(** X17. When subdomains are found, [getSubdomains] answers with the
    header "Subdomains for <input>:" and an empty line, followed by one
    line per subdomain in the order received: its name, and its owner in
    parentheses when it has one. *)
Theorem getSubdomains_lines
        (up : upstream) (past : list event) (name : string)
        (first : Subname) (rest : list Subname) :
  let getSubnames := PublicClient_getSubnames (normalizeName name) in
  up past getSubnames = Returned (Some (first :: rest)) ->
  run up past (getSubdomains name)
  = ([(getSubnames, None)],
     Returned (successEnvelope
                 (("Subdomains for " ++ name ++ ":" ++ LF ++ LF)
                    ++ lines (map subdomainLine (first :: rest))))).
Proof.
  intros getSubnames E. subst getSubnames. unfold getSubdomains.
  revert E. generalize (normalizeName name) as N. intros N E.
  cbv zeta. cbn [catch MonadExc_Prog bind Monad_Prog]. unfold await.
  cbn [bindProg tryCatch run]. rewrite E.
  cbn [bindProg tryCatch run rejection ret Monad_Prog].
  rewrite (fold_left_lines _ subdomainLine); [reflexivity|].
  intros output subdomain. unfold subdomainLine.
  destruct (sub_owner subdomain) as [owner|]; [destruct (truthy owner)|];
    rewrite ?append_assoc; reflexivity.
Qed.


(** Doubles round: a number of years of about 2.5e13 no longer gives the
    exact number of seconds. *)
Example durationInSeconds_rounded :
  times (times (times (times (Finite 24678615572573) (Finite 365)) (Finite 24))
               (Finite 60))
        (Finite 60)
  = Finite 778264820696662016000
  /\ (24678615572573 * 31536000 = 778264820696662128000)%Z.
Proof. split; vm_compute; reflexivity. Qed.


Lemma append_nil_r (s : string) : s ++ "" = s.
Proof. induction s; simpl; congruence. Qed.

Lemma fold_left_block {X : Type} (step : string -> X -> string)
      (line : X -> string) (title : string) :
  (forall output x, step output x = output ++ line x) ->
  forall (l : list X) (output : string),
    match l with
    | [] => output
    | _ :: _ => fold_left step l (output ++ title)
    end = output ++ block title line l.
Proof.
  intros Hstep [|x l] output.
  - simpl. now rewrite append_nil_r.
  - unfold block. rewrite (fold_left_lines step line Hstep).
    now rewrite append_assoc.
Qed.

(** X19. When a history is found, [getNameHistory] answers with the header
    "History for <input>:" and an empty line, followed by the domain
    events, the registration events and the resolver events, each block
    under its title and left out when it has no event, with the lines of
    each event in the order received. *)
Theorem getNameHistory_blocks
        (up : upstream) (past : list event) (name : string)
        (history : NameHistory) :
  let getHistory := PublicClient_getNameHistory (normalizeName name) in
  up past getHistory = Returned (Some history) ->
  run up past (getNameHistory name)
  = ([(getHistory, None)],
     Returned (successEnvelope
                 (((("History for " ++ name ++ ":" ++ LF ++ LF)
                      ++ block ("Domain Events:" ++ LF) domainEventLines
                               (domainEvents history))
                     ++ block (LF ++ "Registration Events:" ++ LF)
                              registrationEventLines
                              (items (registrationEvents history)))
                    ++ block (LF ++ "Resolver Events:" ++ LF) resolverEventLines
                             (items (resolverEvents history))))).
Proof.
  intros getHistory E. subst getHistory. unfold getNameHistory.
  revert E. generalize (normalizeName name) as N. intros N E.
  cbv zeta. cbn [catch MonadExc_Prog bind Monad_Prog]. unfold await.
  cbn [bindProg tryCatch run]. rewrite E.
  cbn [bindProg tryCatch run rejection ret Monad_Prog].
  unfold successEnvelope. do 5 f_equal.
  rewrite <- (fold_left_block
                (fun output event =>
                   if String.eqb (dom_type event) "Transfer"
                      || String.eqb (dom_type event) "NewOwner"
                   then (output ++ "- " ++ dom_type event ++ " at block "
                                ++ numberToString (dom_blockNumber event) ++ LF)
                        ++ "  New owner: " ++ dom_owner event ++ LF
                   else if String.eqb (dom_type event) "NewResolver"
                   then (output ++ "- " ++ dom_type event ++ " at block "
                                ++ numberToString (dom_blockNumber event) ++ LF)
                        ++ "  New resolver: " ++ dom_resolver event ++ LF
                   else output ++ "- " ++ dom_type event ++ " at block "
                               ++ numberToString (dom_blockNumber event) ++ LF)
                domainEventLines ("Domain Events:" ++ LF)).
  2: { intros output event. unfold domainEventLines.
       destruct (_ || _); [|destruct (String.eqb _ _)];
         rewrite ?append_assoc, ?append_nil_r; reflexivity. }
  rewrite <- (fold_left_block
                (fun output event =>
                   if String.eqb (reg_type event) "NameRegistered"
                   then ((output ++ "- " ++ reg_type event ++ " at block "
                                 ++ numberToString (reg_blockNumber event) ++ LF)
                         ++ "  Registrant: " ++ reg_registrant event ++ LF)
                        ++ "  Expiry Date: "
                        ++ toLocaleString (reg_expiryDate event * 1000) ++ LF
                   else if String.eqb (reg_type event) "NameRenewed"
                   then (output ++ "- " ++ reg_type event ++ " at block "
                                ++ numberToString (reg_blockNumber event) ++ LF)
                        ++ "  New Expiry Date: "
                        ++ toLocaleString (reg_expiryDate event * 1000) ++ LF
                   else output ++ "- " ++ reg_type event ++ " at block "
                               ++ numberToString (reg_blockNumber event) ++ LF)
                registrationEventLines (LF ++ "Registration Events:" ++ LF)).
  2: { intros output event. unfold registrationEventLines.
       destruct (String.eqb _ "NameRegistered");
         [|destruct (String.eqb _ "NameRenewed")];
         rewrite ?append_assoc, ?append_nil_r; reflexivity. }
  rewrite <- (fold_left_block
                (fun output event =>
                   if String.eqb (res_type event) "AddrChanged"
                   then (output ++ "- " ++ res_type event ++ " at block "
                                ++ numberToString (res_blockNumber event) ++ LF)
                        ++ "  New address: " ++ res_addr event ++ LF
                   else if String.eqb (res_type event) "TextChanged"
                   then match res_value event with
                        | Some value =>
                            if truthy value
                            then ((output ++ "- " ++ res_type event ++ " at block "
                                          ++ numberToString (res_blockNumber event) ++ LF)
                                  ++ "  Key: " ++ res_key event ++ LF)
                                 ++ "  Value: " ++ value ++ LF
                            else (output ++ "- " ++ res_type event ++ " at block "
                                         ++ numberToString (res_blockNumber event) ++ LF)
                                 ++ "  Key: " ++ res_key event ++ LF
                        | None =>
                            (output ++ "- " ++ res_type event ++ " at block "
                                    ++ numberToString (res_blockNumber event) ++ LF)
                            ++ "  Key: " ++ res_key event ++ LF
                        end
                   else output ++ "- " ++ res_type event ++ " at block "
                               ++ numberToString (res_blockNumber event) ++ LF)
                resolverEventLines (LF ++ "Resolver Events:" ++ LF)).
  2: { intros output event. unfold resolverEventLines.
       destruct (String.eqb _ "AddrChanged");
         [|destruct (String.eqb _ "TextChanged");
           [destruct (res_value event) as [value|];
            [destruct (truthy value)|]|]];
         rewrite ?append_assoc, ?append_nil_r; reflexivity. }
  destruct (domainEvents history) as [|d ds];
    destruct (registrationEvents history) as [[|r rs]|];
    destruct (resolverEvents history) as [[|v vs]|];
    reflexivity.
Qed.

Lemma texts_part (output : string) (recordsTexts : option (list TextRecord)) :
  match recordsTexts with
  | Some ((_ :: _) as recordsTexts) =>
      fold_left
        (fun output record =>
           output ++ "- " ++ txt_key record ++ ": " ++ txt_value record ++ LF)
        recordsTexts
        (output ++ LF ++ "Text Records:" ++ LF)
  | _ => output ++ LF ++ "No text records found."
  end
  = output ++ blockOr (LF ++ "Text Records:" ++ LF) textRecordLine
                      (LF ++ "No text records found.") (items recordsTexts).
Proof.
  destruct recordsTexts as [[|t ts]|]; try reflexivity.
  unfold blockOr, items.
  rewrite (fold_left_lines _ textRecordLine) by reflexivity.
  now rewrite append_assoc.
Qed.

Lemma coins_part (output : string) (recordsCoins : option (list CoinRecord)) :
  match recordsCoins with
  | Some ((_ :: _) as recordsCoins) =>
      fold_left
        (fun output coin =>
           output ++ "- " ++ coin_name coin ++ " (" ++ coin_id coin ++ "): "
                  ++ coin_value coin ++ LF)
        recordsCoins
        (output ++ LF ++ "Addresses:" ++ LF)
  | _ => output ++ LF ++ "No cryptocurrency addresses found."
  end
  = output ++ blockOr (LF ++ "Addresses:" ++ LF) coinRecordLine
                      (LF ++ "No cryptocurrency addresses found.")
                      (items recordsCoins).
Proof.
  destruct recordsCoins as [[|c cs]|]; try reflexivity.
  unfold blockOr, items.
  rewrite (fold_left_lines _ coinRecordLine) by reflexivity.
  now rewrite append_assoc.
Qed.

Lemma contentHash_part (output : string) (hash : option ContentHash) :
  match hash with
  | Some hash =>
      output ++ LF ++ "Content Hash: " ++ decoded hash
             ++ " (Protocol: " ++ protocolType hash ++ ")"
  | None => output
  end
  = output ++ contentHashPart hash.
Proof.
  destruct hash; simpl; [reflexivity | now rewrite append_nil_r].
Qed.

Lemma ownership_part (output : string) (owner : option Ownership) :
  match owner with
  | Some owner =>
      let output := output ++ LF ++ LF ++ "Ownership Information:" in
      let output := output ++ LF ++ "- Owner: " ++ own_owner owner in
      let output :=
        match own_registrant owner with
        | Some registrant =>
            if truthy registrant
            then output ++ LF ++ "- Registrant: " ++ registrant
            else output
        | None => output
        end in
      output ++ LF ++ "- Level: " ++ own_ownershipLevel owner
  | None => output
  end
  = output ++ ownershipPart owner.
Proof.
  destruct owner as [[o [r|] lvl]|]; cbv zeta; unfold ownershipPart;
    cbn [own_owner own_registrant own_ownershipLevel];
    [destruct (truthy r)| |];
    rewrite ?append_assoc, ?append_nil_r; reflexivity.
Qed.

Lemma expiry_part (output : string) (expiry : option Expiry) :
  match expiry with
  | Some expiry =>
      let output := output ++ LF ++ LF ++ "Expiration Information:" in
      let output :=
        output ++ LF ++ "- Expires: " ++ toLocaleString (exp_date (exp_expiry expiry)) in
      let output := output ++ LF ++ "- Status: " ++ exp_status expiry in
      if String.eqb (exp_status expiry) "gracePeriod"
      then output ++ LF ++ "- Grace Period: "
                  ++ quotientToString (exp_gracePeriod expiry) 86400 ++ " days"
      else output
  | None => output
  end
  = output ++ expiryPart expiry.
Proof.
  destruct expiry as [[d g st]|]; cbv zeta; unfold expiryPart;
    cbn [exp_expiry exp_gracePeriod exp_status];
    [destruct (String.eqb st "gracePeriod")|];
    rewrite ?append_assoc, ?append_nil_r; reflexivity.
Qed.

(** X20. When its three calls resolve, [getAllRecords] answers with a
    success whose text is the header with the resolver address, followed
    in this order by the text records, the addresses, the content hash,
    the ownership and the expiration: each part is written from its own
    data only, the two record lists fall back to a "No ... found." line
    when empty or missing, and the last three parts are left out when
    there is nothing to report. The records and the owner are fetched
    under the normalized name, the expiry under the name as given. *)
Theorem getAllRecords_parts
        (up : upstream) (past : list event) (name : string)
        (recs : RecordsResponse) (owner : option Ownership)
        (expiry : option Expiry) :
  let normalizedName := normalizeName name in
  let getRecords := JustaName_subnames_getRecords normalizedName in
  let getOwner := PublicClient_getOwner normalizedName in
  let getExpiry := PublicClient_getExpiry name in
  up past getRecords = Returned recs ->
  up (past ++ [(getRecords, None)])%list getOwner = Returned owner ->
  up ((past ++ [(getRecords, None)]) ++ [(getOwner, None)])%list getExpiry
  = Returned expiry ->
  run up past (getAllRecords name)
  = ([(getRecords, None); (getOwner, None); (getExpiry, None)],
     Returned (successEnvelope
                 ((((((("Information for " ++ normalizedName ++ ":" ++ LF ++ LF)
                        ++ "Resolver Address: " ++ resolverAddress (records recs) ++ LF)
                       ++ blockOr (LF ++ "Text Records:" ++ LF) textRecordLine
                                  (LF ++ "No text records found.")
                                  (items (texts (records recs))))
                      ++ blockOr (LF ++ "Addresses:" ++ LF) coinRecordLine
                                 (LF ++ "No cryptocurrency addresses found.")
                                 (items (coins (records recs))))
                     ++ contentHashPart (contentHash (records recs)))
                    ++ ownershipPart owner)
                 ++ expiryPart expiry))).
Proof.
  intros N getRecords getOwner getExpiry H1 H2 H3.
  pose proof expiry_part as Pe. pose proof ownership_part as Po.
  cbv zeta in Pe, Po.
  unfold getAllRecords. fold N. cbv zeta. unfold catch, MonadExc_Prog.
  rewrite (run_tryCatch_await up past getRecords _ _ (fun x => x)).
  fold getRecords. rewrite H1.
  rewrite (run_tryCatch_await up _ getOwner _ _
             (fun x => let '(trace, res) := x in ((getRecords, None) :: trace, res))).
  fold getOwner. rewrite H2.
  rewrite (run_tryCatch_await up _ getExpiry _ _
             (fun x => let '(trace, res) := x in
                       let '(trace0, res0) := ((getOwner, None) :: trace, res) in
                       ((getRecords, None) :: trace0, res0))).
  fold getExpiry. rewrite H3.
  cbn [tryCatch run ret Monad_Prog].
  unfold successEnvelope. do 5 f_equal.
  rewrite Pe. f_equal.
  rewrite Po. f_equal.
  rewrite contentHash_part. f_equal.
  rewrite coins_part. f_equal.
  rewrite texts_part. reflexivity.
Qed.

End WithRuntime.

Lemma checkAvailability_answers_witness :
  run Samples.availableUpstream [] (checkAvailability "vitalik")
  = ([(PublicClient_getAvailable "vitalik.eth", None)],
     Returned (successEnvelope "The name vitalik.eth is available for registration."))
  /\ run Samples.nothingFound [] (checkAvailability "vitalik")
     = ([(PublicClient_getAvailable "vitalik.eth", None);
         (PublicClient_getOwner "vitalik.eth", None)],
        Returned (successEnvelope "The name vitalik.eth is already registered. ")).
Proof.
  split.
  - apply (proj1 (checkAvailability_answers Samples.availableUpstream [] "vitalik")).
    reflexivity.
  - apply (proj2 (checkAvailability_answers Samples.nothingFound [] "vitalik") None);
      reflexivity.
Defined.

Lemma getTextRecord_answers_witness :
  snd (run (Samples.textUpstream (Some "")) [] (getTextRecord "vitalik" "url"))
  = Returned (successEnvelope "No 'url' record found for vitalik.eth")
  /\ snd (run (Samples.textUpstream (Some "https://vitalik.ca")) []
              (getTextRecord "vitalik" "url"))
     = Returned (successEnvelope "The 'url' record for vitalik.eth is: https://vitalik.ca").
Proof.
  split.
  - apply (proj1 (proj2 (getTextRecord_answers
                           (Samples.textUpstream (Some "")) [] "vitalik" "url"))).
    right. reflexivity.
  - apply (proj2 (proj2 (getTextRecord_answers
                           (Samples.textUpstream (Some "https://vitalik.ca")) []
                           "vitalik" "url")) "https://vitalik.ca");
      [discriminate | reflexivity].
Defined.

Lemma reverseLookup_answers_witness :
  snd (run (Samples.nameUpstream
              (Some {| rev_name := "vitalik.eth"; rev_match := false |})) []
           (reverseLookup (rt := Samples.sampleRuntime)
                          "0xd8dA6BF26964aF9D7eEd9e03E53415D37aA96045"))
  = Returned (successEnvelope
                "The ENS name for 0xd8dA6BF26964aF9D7eEd9e03E53415D37aA96045 is vitalik.eth (Note: forward resolution does not match this address)").
Proof.
  apply (proj2 (proj2 (reverseLookup_answers
                         (rt := Samples.sampleRuntime)
                         (Samples.nameUpstream
                            (Some {| rev_name := "vitalik.eth"; rev_match := false |}))
                         [] "0xd8dA6BF26964aF9D7eEd9e03E53415D37aA96045"
                         eq_refl))
           {| rev_name := "vitalik.eth"; rev_match := false |}).
  reflexivity.
Defined.

Lemma not_found_names_input_witness :
  run (Samples.subnamesUpstream (Some [])) [] (getSubdomains "vitalik")
  = ([(PublicClient_getSubnames "vitalik.eth", None)],
     Returned (successEnvelope "No subdomains found for vitalik"))
  /\ run Samples.nothingFound [] (getNameHistory (rt := Samples.sampleRuntime) "vitalik")
     = ([(PublicClient_getNameHistory "vitalik.eth", None)],
        Returned (successEnvelope "No history found for vitalik")).
Proof.
  split.
  - apply (proj1 (not_found_names_input (rt := Samples.sampleRuntime)
                    (Samples.subnamesUpstream (Some [])) [] "vitalik")).
    right. reflexivity.
  - apply (proj2 (not_found_names_input (rt := Samples.sampleRuntime)
                    Samples.nothingFound [] "vitalik")).
    reflexivity.
Defined.

Lemma getSubdomains_lines_witness :
  snd (run (Samples.subnamesUpstream
              (Some [ {| sub_name := "pay.vitalik.eth"; sub_owner := Some "0xabc" |};
                      {| sub_name := "dao.vitalik.eth"; sub_owner := None |} ]))
           [] (getSubdomains "vitalik"))
  = Returned (successEnvelope
                ("Subdomains for vitalik:" ++ LF ++ LF
                   ++ "- pay.vitalik.eth (Owner: 0xabc)" ++ LF
                   ++ "- dao.vitalik.eth" ++ LF)).
Proof.
  rewrite (getSubdomains_lines
             (Samples.subnamesUpstream
                (Some [ {| sub_name := "pay.vitalik.eth"; sub_owner := Some "0xabc" |};
                        {| sub_name := "dao.vitalik.eth"; sub_owner := None |} ]))
             [] "vitalik"
             {| sub_name := "pay.vitalik.eth"; sub_owner := Some "0xabc" |}
             [ {| sub_name := "dao.vitalik.eth"; sub_owner := None |} ]
             eq_refl).
  reflexivity.
Defined.


Lemma getNameHistory_blocks_witness :
  snd (run (Samples.historyUpstream (Some Samples.oneTransfer)) []
           (getNameHistory (rt := Samples.sampleRuntime) "vitalik"))
  = Returned (successEnvelope
                ("History for vitalik:" ++ LF ++ LF
                   ++ "Domain Events:" ++ LF
                   ++ "- Transfer at block 0" ++ LF
                   ++ "  New owner: 0xabc" ++ LF)).
Proof.
  rewrite (getNameHistory_blocks (rt := Samples.sampleRuntime)
             (Samples.historyUpstream (Some Samples.oneTransfer)) []
             "vitalik" Samples.oneTransfer eq_refl).
  reflexivity.
Defined.

Lemma getAllRecords_parts_witness :
  snd (run Samples.nothingFound []
           (getAllRecords (rt := Samples.sampleRuntime) "vitalik"))
  = Returned (successEnvelope
                ("Information for vitalik.eth:" ++ LF ++ LF
                   ++ "Resolver Address: 0x0" ++ LF
                   ++ LF ++ "No text records found."
                   ++ LF ++ "No cryptocurrency addresses found.")).
Proof.
  rewrite (getAllRecords_parts (rt := Samples.sampleRuntime)
             Samples.nothingFound [] "vitalik"
             {| records := {| resolverAddress := "0x0"; texts := None;
                              coins := None; contentHash := None |} |}
             None None eq_refl eq_refl eq_refl).
  reflexivity.
Defined.

End HandlerResults.
